(** * votes/models.py: the option ordering engine of a Vote

    A shallow embedding of the Django models [Vote], [Option] and [Status]
    and of the methods of [Vote] that add, delete, move and renumber
    options.

    The database is a pair of tables, each a list of rows in storage
    order.  A model instance is a record holding the Python object's
    attributes; [save()] writes all attributes of the instance to the row
    with the instance's primary key, [delete()] removes that row, and a
    query reads the table at the time it is evaluated.  In-memory
    instances are therefore values distinct from the rows they were
    loaded from: a method that mutates [self] or [option] returns the new
    instance.

    Methods run in a state monad with exceptions; [@transaction.atomic]
    restores the tables of the entry state when the body raises.

    The declaration [unique_together = (("vote", "number"))] of
    [Option.Meta] is enforced by the options table on every statement: a
    save or an insert that would give an option the number another option
    of the same vote holds raises IntegrityError and writes nothing
    ([collides]).  The predicate [unique_together] states the constraint
    for the options of one vote. *)

From Stdlib Require Import Ascii String ZArith List Bool Lia.
From Stdlib Require Import Permutation Sorted DecimalString DecimalPos DecimalZ.
Import ListNotations.

Local Open Scope string_scope.
Local Open Scope list_scope.
Local Open Scope Z_scope.

(** ** Model instances *)

Module Stage.
Definition INIT : string := "I".
Definition STAGED : string := "S".
Definition OPEN : string := "O".
Definition CLOSE : string := "C".
Definition PUBLIC : string := "P".

Definition STAGES : list (string * string) :=
  [ (INIT, "Init"); (STAGED, "Staged"); (OPEN, "Open");
    (CLOSE, "Close"); (PUBLIC, "Results public") ].
End Stage.

Record Status := mkStatus {
  open_time : option Z;
  close_time : option Z;
  public_time : option Z;
  stage : string
}.

Record Vote := mkVote {
  vote_id : Z;
  system : Z;
  vote_name : string;
  machine_name : string;
  user_filter : option Z;
  status : Status;
  vote_description : string;
  creator : Z;
  min_votes : Z;
  max_votes : Z
}.

Record Option := mkOption {
  opt_id : Z;
  vote : Z;
  number : Z;
  name : string;
  description : string;
  picture_url : string;
  personal_link : string;
  link_name : string;
  count : Z
}.

Definition set_number (o : Option) (n : Z) : Option :=
  mkOption (opt_id o) (vote o) n (name o) (description o)
           (picture_url o) (personal_link o) (link_name o) (count o).

Definition set_min_votes (v : Vote) (n : Z) : Vote :=
  mkVote (vote_id v) (system v) (vote_name v) (machine_name v)
         (user_filter v) (status v) (vote_description v) (creator v)
         n (max_votes v).

Definition set_max_votes (v : Vote) (n : Z) : Vote :=
  mkVote (vote_id v) (system v) (vote_name v) (machine_name v)
         (user_filter v) (status v) (vote_description v) (creator v)
         (min_votes v) n.

(** The value of a blank text field. *)
Definition blank : string := EmptyString.

(** [Option(vote=self, number=num, name=...)]: the other fields take the
    defaults of the model (blank strings, [count] 0); the primary key is
    given by the table when the instance is first saved. *)
Definition new_Option (pk : Z) (v : Vote) (num : Z) (nm : string) : Option :=
  mkOption pk (vote_id v) num nm blank blank blank blank 0.

(** Python's [str] on an integer. *)
Definition str (n : Z) : string := NilZero.string_of_int (Z.to_int n).

(** ** The tables *)

Record DB := mkDB {
  votes : list Vote;
  options : list Option
}.

Definition same_pk (o r : Option) : bool := opt_id r =? opt_id o.

Definition has_pk (i : Z) (rows : list Option) : bool :=
  existsb (fun r => opt_id r =? i) rows.

(** UPDATE ... WHERE id = o.id *)
Definition update_row (o : Option) (rows : list Option) : list Option :=
  map (fun r => if same_pk o r then o else r) rows.

(** [o.save()] for an instance with a primary key: update the row, insert
    when there is none. *)
Definition upsert_option (o : Option) (rows : list Option) : list Option :=
  if has_pk (opt_id o) rows then update_row o rows else rows ++ [o].

Definition delete_row (o : Option) (rows : list Option) : list Option :=
  filter (fun r => negb (same_pk o r)) rows.

(** [unique_together = (("vote", "number"))]: does another row of the
    table hold the vote and the number of [o]? *)
Definition collides (o : Option) (rows : list Option) : bool :=
  existsb (fun r => (vote r =? vote o) && (number r =? number o)
                    && negb (opt_id r =? opt_id o)) rows.

(** The key given to the next inserted row.  The [AutoField] leaves the
    choice to the sequence of the database; the table here keeps no
    record of the keys of deleted rows and gives the successor of the
    largest stored key.  The theorems on [addOption] use only that the
    key is one no stored row has ([next_pk_fresh]); its value shows in
    the sample runs alone. *)
Definition next_pk (rows : list Option) : Z :=
  1 + fold_right Z.max 0 (map opt_id rows).

Definition upsert_vote (v : Vote) (rows : list Vote) : list Vote :=
  if existsb (fun r => vote_id r =? vote_id v) rows
  then map (fun r => if vote_id r =? vote_id v then v else r) rows
  else rows ++ [v].

(** ** Queries *)

Definition of_vote (self : Vote) (o : Option) : bool := vote o =? vote_id self.

(** [self.option_set] *)
Definition option_set (self : Vote) (db : DB) : list Option :=
  filter (of_vote self) (options db).

(** [.order_by("number")]: rows with equal numbers stay in storage order. *)
Fixpoint insert_by_number (x : Option) (l : list Option) : list Option :=
  match l with
  | [] => [x]
  | y :: l' =>
      if number x <=? number y then x :: l else y :: insert_by_number x l'
  end.

Definition order_by_number (l : list Option) : list Option :=
  fold_right insert_by_number [] l.

(** [.values_list('id', flat=True)] *)
Definition values_list_id (l : list Option) : list Z := map opt_id l.

(** [.count()] *)
Definition qs_count (l : list Option) : Z := Z.of_nat (length l).

(** [.filter(number=n)]; indexing the result with [[0]] takes its first
    row in storage order. *)
Definition filter_number (n : Z) (l : list Option) : list Option :=
  filter (fun o => number o =? n) l.

(** [x in l] on a list of keys *)
Definition py_in (i : Z) (l : list Z) : bool := existsb (Z.eqb i) l.

(** [enumerate] *)
Fixpoint enumerate_from {A : Type} (i : Z) (l : list A) : list (Z * A) :=
  match l with
  | [] => []
  | x :: l' => (i, x) :: enumerate_from (i + 1) l'
  end.

Definition enumerate {A : Type} (l : list A) : list (Z * A) :=
  enumerate_from 0 l.

(** ** The monad of model methods *)

Inductive exn := ValueError | IndexError | IntegrityError.

Definition M (A : Type) : Type := DB -> (exn + A) * DB.

Definition ret {A : Type} (a : A) : M A := fun db => (inr a, db).

Definition bind {A B : Type} (m : M A) (k : A -> M B) : M B :=
  fun db =>
    match m db with
    | (inl e, db') => (inl e, db')
    | (inr a, db') => k a db'
    end.

Definition raise {A : Type} (e : exn) : M A := fun db => (inl e, db).

Definition query {A : Type} (q : DB -> A) : M A := fun db => (inr (q db), db).

Definition write (w : DB -> DB) : M unit := fun db => (inr tt, w db).

(** [@transaction.atomic]: the writes of a body that raises are undone. *)
Definition atomic {A : Type} (m : M A) : M A :=
  fun db =>
    match m db with
    | (inl e, _) => (inl e, db)
    | (inr a, db') => (inr a, db')
    end.

Notation "x <- m ;; k" := (bind m (fun x => k))
  (at level 61, m at next level, right associativity).
Notation "m ;;; k" := (bind m (fun _ => k))
  (at level 61, right associativity).

Fixpoint for_each {A : Type} (l : list A) (body : A -> M unit) : M unit :=
  match l with
  | [] => ret tt
  | x :: l' => body x ;;; for_each l' body
  end.

(** [o.save()]: the statement is refused when another row would share
    [(vote, number)] with the row written. *)
Definition save_option (o : Option) : M unit :=
  fun db =>
    if collides o (options db) then (inl IntegrityError, db)
    else (inr tt, mkDB (votes db) (upsert_option o (options db))).

(** [save()] of an instance without a primary key: INSERT, refused in the
    same way. *)
Definition insert_option (mk : Z -> Option) : M unit :=
  fun db =>
    let o := mk (next_pk (options db)) in
    if collides o (options db) then (inl IntegrityError, db)
    else (inr tt, mkDB (votes db) (options db ++ [o])).

Definition delete_option (o : Option) : M unit :=
  write (fun db => mkDB (votes db) (delete_row o (options db))).

Definition save_vote (v : Vote) : M unit :=
  write (fun db => mkDB (upsert_vote v (votes db)) (options db)).

(** ** The methods of [Vote] *)

Definition canBeModified (self : Vote) : bool :=
  String.eqb (stage (status self)) "I".

Definition renumberOptions_body (self : Vote) : M unit :=
  qs <- query (fun db => order_by_number (option_set self db)) ;;
  for_each (enumerate qs) (fun iv => save_option (set_number (snd iv) (fst iv))).

Definition renumberOptions (self : Vote) : M unit :=
  atomic (renumberOptions_body self).

Definition deleteOption_body (self : Vote) (option : Option) : M Vote :=
  ids <- query (fun db => values_list_id (option_set self db)) ;;
  if negb (py_in (opt_id option) ids) then raise ValueError else
  delete_option option ;;;
  count <- query (fun db => qs_count (option_set self db)) ;;
  let self1 :=
    if min_votes self >? count then set_min_votes self count else self in
  let self2 :=
    if max_votes self1 >? count then set_max_votes self1 count else self1 in
  save_vote self2 ;;;
  renumberOptions self2 ;;;
  ret self2.

Definition deleteOption (self : Vote) (option : Option) : M Vote :=
  atomic (deleteOption_body self option).

Definition addOption_body (self : Vote) : M unit :=
  renumberOptions self ;;;
  num <- query (fun db => qs_count (option_set self db)) ;;
  insert_option (fun pk => new_Option pk self num (String.append "Option #" (str (num + 1)))).

Definition addOption (self : Vote) : M unit :=
  atomic (addOption_body self).

Definition moveDownOption_body (self : Vote) (option : Option) : M Option :=
  ids <- query (fun db => values_list_id (option_set self db)) ;;
  if negb (py_in (opt_id option) ids) then raise ValueError else
  renumberOptions self ;;;
  if number option =? 0 then ret option else
  found <- query (fun db => filter_number (number option - 1) (option_set self db)) ;;
  match found with
  | [] => raise IndexError
  | below :: _ =>
      let below' := set_number below (number option) in
      let option' := set_number option (number option - 1) in
      save_option below' ;;;
      save_option option' ;;;
      ret option'
  end.

Definition moveDownOption (self : Vote) (option : Option) : M Option :=
  atomic (moveDownOption_body self option).

Definition moveUpOption_body (self : Vote) (option : Option) : M Option :=
  ids <- query (fun db => values_list_id (option_set self db)) ;;
  if negb (py_in (opt_id option) ids) then raise ValueError else
  renumberOptions self ;;;
  top <- query (fun db => qs_count (option_set self db) - 1) ;;
  if number option =? top then ret option else
  found <- query (fun db => filter_number (number option + 1) (option_set self db)) ;;
  match found with
  | [] => raise IndexError
  | above :: _ =>
      let above' := set_number above (number option) in
      let option' := set_number option (number option + 1) in
      save_option above' ;;;
      save_option option' ;;;
      ret option'
  end.

Definition moveUpOption (self : Vote) (option : Option) : M Option :=
  atomic (moveUpOption_body self option).

(** ** Specification predicates *)

(** Primary keys identify rows. *)
Definition pk_unique (db : DB) : Prop := NoDup (map opt_id (options db)).

Definition lookup_option (i : Z) (db : DB) : option Option :=
  find (fun r => opt_id r =? i) (options db).

Definition lookup_vote (i : Z) (db : DB) : option Vote :=
  find (fun r => vote_id r =? i) (votes db).

Definition numbers (self : Vote) (db : DB) : list Z :=
  map number (option_set self db).

(** The declared constraint of [Option.Meta], for the options of a vote. *)
Definition unique_together (self : Vote) (db : DB) : Prop :=
  NoDup (numbers self db).

(** The numbers of the vote's options are pairwise distinct and none is
    negative. *)
Definition distinct_nonneg (self : Vote) (db : DB) : Prop :=
  unique_together self db /\ forall n, In n (numbers self db) -> 0 <= n.

(** The numbers of the vote's options are pairwise distinct and are
    exactly 0, ..., count-1. *)
Definition dense (self : Vote) (db : DB) : Prop :=
  unique_together self db /\
  forall k, In k (numbers self db) <-> 0 <= k < qs_count (option_set self db).

(** Python's [range(k, k + n)]. *)
Fixpoint range_from (k : Z) (n : nat) : list Z :=
  match n with
  | O => []
  | S n' => k :: range_from (k + 1) n'
  end.

(** The effect of the loop of [renumberOptions] on one row: the first
    entry of the enumeration with the row's key gives the row its value. *)
Fixpoint assign (l : list (Z * Option)) (r : Option) : Option :=
  match l with
  | [] => r
  | iv :: l' =>
      if opt_id r =? opt_id (snd iv) then set_number (snd iv) (fst iv)
      else assign l' r
  end.

Definition renumbered (self : Vote) (db : DB) : DB :=
  mkDB (votes db)
       (map (assign (enumerate (order_by_number (option_set self db))))
            (options db)).

(** Clamping of [deleteOption]. *)
Definition clamp_votes (self : Vote) (count : Z) : Vote :=
  let self1 :=
    if min_votes self >? count then set_min_votes self count else self in
  if max_votes self1 >? count then set_max_votes self1 count else self1.

(** ** Auxiliary notions of the proofs *)

(** The order of the sorted query. *)
Definition le_number (a b : Option) : Prop := number a <= number b.

Definition lt_number (a b : Option) : Prop := number a < number b.

(** The saves of the loop of [renumberOptions], applied without a check. *)
Definition apply_saves (l : list (Z * Option)) (rows : list Option) : list Option :=
  fold_left (fun rows iv => upsert_option (set_number (snd iv) (fst iv)) rows) l rows.

(** The key of the instance of an enumerated entry. *)
Definition entry_pk (iv : Z * Option) : Z := opt_id (snd iv).

(** What the loop of [renumberOptions] iterates over. *)
Definition renumber_entries (self : Vote) (db : DB) : list (Z * Option) :=
  enumerate (order_by_number (option_set self db)).

(** The instance [addOption] inserts. *)
Definition added (self : Vote) (db : DB) : Option :=
  let num := qs_count (option_set self db) in
  new_Option (next_pk (options db)) self num (String.append "Option #" (str (num + 1))).

(** The tables after [option.delete()]. *)
Definition deleted (option : Option) (db : DB) : DB :=
  mkDB (votes db) (delete_row option (options db)).

(** The two saves of a move, one after the other. *)
Definition two_saves (o' n' : Option) (db : DB) : DB :=
  mkDB (votes db) (upsert_option o' (upsert_option n' (options db))).

(** The calls of the spec's sequences; a call on an option carries the
    instance it is made with. *)
Inductive call :=
| AddOption
| DeleteOption (o : Option)
| MoveUpOption (o : Option)
| MoveDownOption (o : Option).

(** One call that completes without error, made with an instance that is a
    row of the table at the time of the call. *)
Inductive step : Vote * DB -> call -> Vote * DB -> Prop :=
| step_add self db db' :
    addOption self db = (inr tt, db') ->
    step (self, db) AddOption (self, db')
| step_delete self o db self' db' :
    In o (options db) ->
    deleteOption self o db = (inr self', db') ->
    step (self, db) (DeleteOption o) (self', db')
| step_up self o o' db db' :
    In o (options db) ->
    moveUpOption self o db = (inr o', db') ->
    step (self, db) (MoveUpOption o) (self, db')
| step_down self o o' db db' :
    In o (options db) ->
    moveDownOption self o db = (inr o', db') ->
    step (self, db) (MoveDownOption o) (self, db').

(** A sequence of such calls. *)
Inductive steps : Vote * DB -> list call -> Vote * DB -> Prop :=
| steps_nil s : steps s [] s
| steps_cons s c s' cs s'' :
    step s c s' -> steps s' cs s'' -> steps s (c :: cs) s''.

(** ** Sample data *)

Module Sample.
Definition st : Status := mkStatus None None None Stage.INIT.
Definition ballot : Vote := mkVote 1 1 "Board" "board" None st blank 1 2 3.
Definition other : Vote := mkVote 2 1 "Budget" "budget" None st blank 1 1 1.

Definition opt (pk v n : Z) (nm : string) (c : Z) : Option :=
  mkOption pk v n nm blank blank blank blank c.

(** Three options numbered 0, 1, 2 and one option of another vote. *)
Definition db3 : DB :=
  mkDB [ballot; other]
       [opt 10 1 0 "a" 4; opt 11 1 1 "b" 0; opt 20 2 0 "x" 1; opt 12 1 2 "c" 7].

(** Options numbered 5, 2, 9, 0. *)
Definition db_tampered : DB :=
  mkDB [ballot]
       [opt 10 1 5 "a" 4; opt 11 1 2 "b" 0; opt 12 1 9 "c" 7; opt 13 1 0 "d" 3].

(** Options numbered 0, 3, 4. *)
Definition db_gap : DB :=
  mkDB [ballot] [opt 10 1 0 "a" 4; opt 11 1 3 "b" 0; opt 12 1 4 "c" 7].

(** Five options numbered 0..4, stored in another order. *)
Definition db5 : DB :=
  mkDB [ballot]
       [opt 10 1 3 "a" 4; opt 11 1 0 "b" 0; opt 12 1 2 "c" 7;
        opt 13 1 4 "d" 1; opt 14 1 1 "e" 2].

(** Options numbered 0 and 5. *)
Definition db_gap2 : DB :=
  mkDB [ballot] [opt 10 1 0 "a" 4; opt 11 1 5 "b" 0].

(** Options numbered -1 and 0. *)
Definition db_neg : DB :=
  mkDB [ballot] [opt 10 1 (-1) "a" 4; opt 11 1 0 "b" 0].

End Sample.

(** Distinctness of the keys of a literal table. *)
Ltac nodup_tac :=
  repeat (constructor; [simpl; intuition discriminate|]); constructor.

(** ** Further methods, and callers of the methods *)

(** [Option.__str__]: [u'[%s] %s' % (self.number, self.name)]. *)
Definition Option_str (o : Option) : string :=
  String.append "[" (String.append (str (number o)) (String.append "] " (name o))).

(** [Vote.__str__]: [u'[%s] %s' % (self.machine_name, self.name)]. *)
Definition Vote_str (v : Vote) : string :=
  String.append "[" (String.append (machine_name v) (String.append "] " (vote_name v))).

(** [Vote.canEdit]: [user.isAdminFor(self.system)].  The user model lives
    outside this file; its method is a parameter. *)
Definition Vote_canEdit {User : Type} (isAdminFor : User -> Z -> bool)
           (self : Vote) (user : User) : bool :=
  isAdminFor user (system self).

(** [Option.canEdit]: [self.vote.canEdit(user)]; [self.vote] loads the row
    of the vote, and there is no answer when that row is missing. *)
Definition Option_canEdit {User : Type} (isAdminFor : User -> Z -> bool)
           (self : Option) (user : User) (db : DB) : option bool :=
  match lookup_vote (vote self) db with
  | Some v => Some (Vote_canEdit isAdminFor v user)
  | None => None
  end.

(** A row without its number. *)
Definition erase_number (o : Option) : Option := set_number o 0.

(** [n] calls of [addOption] in a row. *)
Fixpoint add_many (n : nat) (self : Vote) : M unit :=
  match n with
  | O => ret tt
  | S n' => addOption self ;;; add_many n' self
  end.

(** The default name of the option created at number [j]. *)
Definition default_name (j : Z) : string :=
  String.append "Option #" (str (j + 1)).


(** A character of a string. *)
Fixpoint has_char (c : Ascii.ascii) (s : string) : bool :=
  match s with
  | EmptyString => false
  | String c' s' => if Ascii.eqb c' c then true else has_char c s'
  end.

(** * Lemmas *)

(** ** Ranges *)

Lemma range_from_In k n x :
  In x (range_from k n) <-> k <= x < k + Z.of_nat n.
Proof.
  revert k; induction n as [|n IH]; intros k; simpl range_from.
  - simpl; lia.
  - simpl In. rewrite IH. lia.
Qed.

Lemma range_from_NoDup k n : NoDup (range_from k n).
Proof.
  revert k; induction n as [|n IH]; intros k; simpl; constructor.
  - rewrite range_from_In; lia.
  - apply IH.
Qed.

Lemma range_from_sorted k n : StronglySorted Z.le (range_from k n).
Proof.
  revert k; induction n as [|n IH]; intros k; simpl; constructor.
  - apply IH.
  - apply Forall_forall; intros x Hx. apply range_from_In in Hx; lia.
Qed.

Lemma range_from_length k n : List.length (range_from k n) = n.
Proof. revert k; induction n; intros; simpl; congruence. Qed.

Lemma enumerate_from_fst {A} k (l : list A) :
  map fst (enumerate_from k l) = range_from k (List.length l).
Proof. revert k; induction l; intros; simpl; congruence. Qed.

Lemma enumerate_from_snd {A} k (l : list A) :
  map snd (enumerate_from k l) = l.
Proof. revert k; induction l; intros; simpl; congruence. Qed.

(** ** Sorting by number *)

Lemma insert_by_number_perm x l : Permutation (insert_by_number x l) (x :: l).
Proof.
  induction l as [|y l IH]; simpl; auto.
  destruct (number x <=? number y); auto.
  rewrite IH. apply perm_swap.
Qed.

Lemma order_by_number_perm l : Permutation (order_by_number l) l.
Proof.
  induction l as [|x l IH]; simpl; auto.
  rewrite insert_by_number_perm. auto.
Qed.

Lemma insert_by_number_sorted x l :
  StronglySorted le_number l -> StronglySorted le_number (insert_by_number x l).
Proof.
  induction 1 as [|y l Hs IH Hall]; simpl.
  - repeat constructor.
  - destruct (Z.leb_spec (number x) (number y)) as [Hle|Hgt].
    + constructor; [constructor; assumption|].
      constructor; [exact Hle|].
      eapply Forall_impl; [|exact Hall].
      unfold le_number; intros; lia.
    + constructor; [exact IH|].
      apply Forall_forall; intros z Hz.
      apply (Permutation_in _ (insert_by_number_perm x l)) in Hz.
      destruct Hz as [<-|Hz]; [unfold le_number; lia|].
      rewrite Forall_forall in Hall; auto.
Qed.

Lemma order_by_number_sorted l : StronglySorted le_number (order_by_number l).
Proof.
  induction l; simpl; [constructor | apply insert_by_number_sorted; assumption].
Qed.

Lemma sorted_map_number l :
  StronglySorted le_number l -> StronglySorted Z.le (map number l).
Proof.
  induction 1 as [|y l Hs IH Hall]; simpl; constructor; auto.
  apply Forall_forall; intros z Hz. apply in_map_iff in Hz.
  destruct Hz as (r & <- & Hr). rewrite Forall_forall in Hall. apply Hall, Hr.
Qed.

(** Two sorted lists of integers with the same elements are the same list. *)
Lemma sorted_perm_eq (l1 l2 : list Z) :
  StronglySorted Z.le l1 -> StronglySorted Z.le l2 ->
  Permutation l1 l2 -> l1 = l2.
Proof.
  intros H1; revert l2; induction H1 as [|a l1 Hs1 IH Ha]; intros l2 H2 Hp.
  - apply Permutation_nil in Hp; auto.
  - destruct H2 as [|b l2 Hs2 Hb].
    + apply Permutation_sym, Permutation_nil in Hp; discriminate.
    + assert (a = b) as ->.
      { rewrite Forall_forall in Ha, Hb.
        assert (In a (b :: l2)) as Hab
            by (eapply Permutation_in; [exact Hp | left; reflexivity]).
        assert (In b (a :: l1)) as Hba
            by (eapply Permutation_in;
                [apply Permutation_sym; exact Hp | left; reflexivity]).
        destruct Hab as [->|Hab]; auto.
        destruct Hba as [->|Hba]; auto.
        specialize (Ha _ Hba); specialize (Hb _ Hab); lia. }
      f_equal. apply IH; auto. eapply Permutation_cons_inv; exact Hp.
Qed.

(** ** Rows and keys *)

Lemma set_number_same o : set_number o (number o) = o.
Proof. destruct o; reflexivity. Qed.

Lemma NoDup_map_filter {A B} (g : A -> B) (f : A -> bool) l :
  NoDup (map g l) -> NoDup (map g (filter f l)).
Proof.
  induction l as [|x l IH]; simpl; intros H; auto.
  inversion H as [|? ? Hn Hd]; subst.
  destruct (f x); simpl; auto.
  constructor; auto.
  intros Hin; apply Hn. apply in_map_iff in Hin.
  destruct Hin as (y & Hy & Hin). apply filter_In in Hin.
  apply in_map_iff; exists y; tauto.
Qed.

(** In a table with unique keys a row is determined by its key. *)
Lemma pk_inj (rows : list Option) a b :
  NoDup (map opt_id rows) -> In a rows -> In b rows ->
  opt_id a = opt_id b -> a = b.
Proof.
  induction rows as [|x rows IH]; simpl; intros Hnd Ha Hb Hab; [tauto|].
  inversion Hnd as [|? ? Hn Hd]; subst.
  destruct Ha as [->|Ha], Hb as [->|Hb]; auto.
  - exfalso; apply Hn. rewrite Hab. apply in_map; assumption.
  - exfalso; apply Hn. rewrite <- Hab. apply in_map; assumption.
Qed.

Lemma has_pk_true i rows :
  In i (map opt_id rows) -> has_pk i rows = true.
Proof.
  intros H. apply in_map_iff in H. destruct H as (r & <- & Hr).
  apply existsb_exists. exists r; split; auto. apply Z.eqb_refl.
Qed.

Lemma py_in_spec i l : py_in i l = true <-> In i l.
Proof.
  unfold py_in. rewrite existsb_exists. split.
  - intros (x & Hx & He). apply Z.eqb_eq in He; subst; auto.
  - intros H; exists i; split; auto. apply Z.eqb_refl.
Qed.

Lemma update_row_ids o rows : map opt_id (update_row o rows) = map opt_id rows.
Proof.
  unfold update_row. rewrite map_map. apply map_ext.
  intros r. unfold same_pk. destruct (Z.eqb_spec (opt_id r) (opt_id o)); congruence.
Qed.

Lemma find_pk (rows : list Option) r :
  NoDup (map opt_id rows) -> In r rows ->
  find (fun x => opt_id x =? opt_id r) rows = Some r.
Proof.
  induction rows as [|x rows IH]; simpl; intros Hnd Hin; [tauto|].
  inversion Hnd as [|? ? Hn Hd]; subst.
  destruct (Z.eqb_spec (opt_id x) (opt_id r)) as [He|Hne].
  - f_equal. apply (pk_inj (x :: rows)); simpl; auto.
  - destruct Hin as [->|Hin]; [congruence | auto].
Qed.

(** ** The loop of renumberOptions *)

Lemma assign_notin l r : ~ In (opt_id r) (map entry_pk l) -> assign l r = r.
Proof.
  induction l as [|iv l IH]; simpl; intros H; auto.
  destruct (Z.eqb_spec (opt_id r) (opt_id (snd iv))) as [He|Hne].
  - exfalso; apply H; left; unfold entry_pk; congruence.
  - apply IH; tauto.
Qed.

Lemma assign_pk l r : opt_id (assign l r) = opt_id r.
Proof.
  induction l as [|iv l IH]; simpl; auto.
  destruct (Z.eqb_spec (opt_id r) (opt_id (snd iv))); simpl; congruence.
Qed.

Lemma enumerate_from_pk k (l : list Option) :
  map entry_pk (enumerate_from k l) = map opt_id l.
Proof. revert k; induction l; intros; simpl; [|unfold entry_pk at 1; simpl]; congruence. Qed.

Lemma enumerate_from_In k (l : list Option) iv :
  In iv (enumerate_from k l) -> In (snd iv) l.
Proof.
  intros H. rewrite <- (enumerate_from_snd k l). apply in_map; assumption.
Qed.

(** The [j]-th row of the enumerated list receives the number [k + j]. *)
Lemma assign_enumerate_nth k (qs : list Option) j v :
  NoDup (map opt_id qs) -> nth_error qs j = Some v ->
  assign (enumerate_from k qs) v = set_number v (k + Z.of_nat j).
Proof.
  revert k j; induction qs as [|x qs IH]; intros k j Hnd Hj.
  - destruct j; discriminate.
  - inversion Hnd as [|? ? Hn Hd]; subst. destruct j as [|j]; simpl in Hj |- *.
    + injection Hj as ->. rewrite Z.eqb_refl. f_equal; lia.
    + destruct (Z.eqb_spec (opt_id v) (opt_id x)) as [He|Hne].
      * exfalso; apply Hn. rewrite <- He. apply in_map.
        eapply nth_error_In; exact Hj.
      * rewrite (IH (k + 1) j Hd Hj). f_equal; lia.
Qed.

Lemma collides_false o rows :
  (forall r, In r rows -> vote r = vote o -> number r = number o ->
             opt_id r = opt_id o) ->
  collides o rows = false.
Proof.
  intros H. unfold collides. destruct (existsb _ rows) eqn:E; auto.
  apply existsb_exists in E. destruct E as (r & Hr & Hc).
  apply andb_true_iff in Hc. destruct Hc as [Hc Hk].
  apply andb_true_iff in Hc. destruct Hc as [Hv Hn].
  apply Z.eqb_eq in Hv, Hn. rewrite (H r Hr Hv Hn), Z.eqb_refl in Hk.
  discriminate.
Qed.

Lemma collides_true o rows r :
  In r rows -> vote r = vote o -> number r = number o ->
  opt_id r <> opt_id o -> collides o rows = true.
Proof.
  intros Hr Hv Hn Hk. unfold collides. apply existsb_exists. exists r.
  split; auto. rewrite Hv, Hn, !Z.eqb_refl. simpl.
  destruct (Z.eqb_spec (opt_id r) (opt_id o)); [contradiction | reflexivity].
Qed.

Lemma save_option_ok o db :
  collides o (options db) = false ->
  save_option o db = (inr tt, mkDB (votes db) (upsert_option o (options db))).
Proof. intros H. unfold save_option. rewrite H. reflexivity. Qed.

Lemma save_option_refused o db :
  collides o (options db) = true -> save_option o db = (inl IntegrityError, db).
Proof. intros H. unfold save_option. rewrite H. reflexivity. Qed.

(** The loop either applies all its saves or stops at a refused one. *)
Lemma for_each_saves_outcome (l : list (Z * Option)) db :
  for_each l (fun iv => save_option (set_number (snd iv) (fst iv))) db
  = (inr tt, mkDB (votes db) (apply_saves l (options db))) \/
  exists db',
    for_each l (fun iv => save_option (set_number (snd iv) (fst iv))) db
    = (inl IntegrityError, db').
Proof.
  revert db; induction l as [|iv l IH]; intros db; simpl.
  - left. destruct db; reflexivity.
  - unfold bind.
    destruct (collides (set_number (snd iv) (fst iv)) (options db)) eqn:E.
    + right. exists db. rewrite save_option_refused by exact E. reflexivity.
    + rewrite save_option_ok by exact E.
      destruct (IH (mkDB (votes db)
                         (upsert_option (set_number (snd iv) (fst iv)) (options db))))
        as [H|[db' H]]; rewrite H; [left; reflexivity | right; eauto].
Qed.

(** No save of the loop is refused when the rows still to be numbered
    carry increasing numbers from [k] on and the rows already numbered
    carry numbers below [k]. *)
Lemma for_each_saves_ok V (qs : list Option) : forall k db,
  NoDup (map opt_id (options db)) ->
  NoDup (map opt_id qs) ->
  (forall v, In v qs -> In v (options db) /\ vote v = V) ->
  StronglySorted lt_number qs ->
  (forall v, In v qs -> k <= number v) ->
  (forall r, In r (options db) -> vote r = V ->
             ~ In (opt_id r) (map opt_id qs) -> number r < k) ->
  for_each (enumerate_from k qs)
           (fun iv => save_option (set_number (snd iv) (fst iv))) db
  = (inr tt, mkDB (votes db) (apply_saves (enumerate_from k qs) (options db))).
Proof.
  induction qs as [|v qs IH]; intros k db Hpk Hq Hin Hs Hk Hrest; simpl.
  - destruct db; reflexivity.
  - inversion Hq as [|? ? Hnv Hq']; subst.
    inversion Hs as [|? ? Hs' Hlt]; subst.
    rewrite Forall_forall in Hlt.
    destruct (Hin v (or_introl eq_refl)) as [Hv HvV].
    assert (collides (set_number v k) (options db) = false) as Hc.
    { apply collides_false. simpl. intros r Hr Hrv Hrn.
      destruct (Z.eq_dec (opt_id r) (opt_id v)) as [|Hne]; auto. exfalso.
      destruct (in_dec Z.eq_dec (opt_id r) (map opt_id qs)) as [Hi|Hi].
      - apply in_map_iff in Hi. destruct Hi as (v' & E & Hv').
        destruct (Hin v' (or_intror Hv')) as [Hv'r _].
        apply (pk_inj (options db)) in E; auto. subst v'.
        specialize (Hlt r Hv'). unfold lt_number in Hlt.
        specialize (Hk v (or_introl eq_refl)). lia.
      - assert (number r < k); [|lia].
        apply Hrest; auto; [congruence|]. simpl. intros [E|E]; auto. }
    unfold bind. rewrite save_option_ok by exact Hc.
    assert (upsert_option (set_number v k) (options db)
            = update_row (set_number v k) (options db)) as Hup.
    { unfold upsert_option. simpl opt_id.
      rewrite has_pk_true by (apply in_map; exact Hv). reflexivity. }
    rewrite IH.
    + reflexivity.
    + cbn [options]. rewrite Hup, update_row_ids. exact Hpk.
    + exact Hq'.
    + intros v' Hv'. destruct (Hin v' (or_intror Hv')) as [Hr HV].
      split; auto. cbn [options]. rewrite Hup. unfold update_row.
      apply in_map_iff. exists v'. split; auto. unfold same_pk; simpl.
      destruct (Z.eqb_spec (opt_id v') (opt_id v)) as [E|]; auto.
      exfalso. apply Hnv. rewrite <- E. apply in_map; exact Hv'.
    + exact Hs'.
    + intros v' Hv'. specialize (Hlt v' Hv'). unfold lt_number in Hlt.
      specialize (Hk v (or_introl eq_refl)). lia.
    + cbn [options]. rewrite Hup. intros r Hr HrV Hni.
      unfold update_row in Hr. apply in_map_iff in Hr.
      destruct Hr as (r0 & E & Hr0). unfold same_pk in E; simpl in E.
      destruct (Z.eqb_spec (opt_id r0) (opt_id v)) as [Ek|Ek]; subst r.
      * simpl. lia.
      * assert (number r0 < k); [|lia].
        apply Hrest; auto. simpl. intros [E|E]; auto.
Qed.

Lemma saves_assign (l : list (Z * Option)) rows :
  NoDup (map opt_id rows) -> NoDup (map entry_pk l) ->
  (forall iv, In iv l -> In (snd iv) rows) ->
  apply_saves l rows = map (assign l) rows.
Proof.
  unfold apply_saves.
  revert rows; induction l as [|iv l IH]; intros rows Hrows Hl Hin; simpl.
  - symmetry; apply map_id.
  - inversion Hl as [|? ? Hn Hd]; subst.
    unfold upsert_option at 2. simpl opt_id.
    rewrite has_pk_true by (apply in_map, Hin; left; reflexivity).
    rewrite IH; auto.
    + unfold update_row. rewrite map_map. apply map_ext.
      intros r. unfold same_pk; simpl.
      destruct (Z.eqb_spec (opt_id r) (opt_id (snd iv))); auto.
      apply assign_notin. exact Hn.
    + rewrite update_row_ids; assumption.
    + intros iv' Hiv'. unfold update_row. apply in_map_iff.
      exists (snd iv'); split; [|apply Hin; right; assumption].
      unfold same_pk; simpl.
      destruct (Z.eqb_spec (opt_id (snd iv')) (opt_id (snd iv))) as [He|]; auto.
      exfalso; apply Hn. unfold entry_pk at 1. rewrite <- He.
      apply (in_map entry_pk) in Hiv'. exact Hiv'.
Qed.

Lemma option_set_pk self db :
  pk_unique db -> NoDup (map opt_id (option_set self db)).
Proof. intros H. apply NoDup_map_filter. exact H. Qed.

Lemma sorted_pk self db :
  pk_unique db -> NoDup (map opt_id (order_by_number (option_set self db))).
Proof.
  intros H. eapply Permutation_NoDup; [|apply option_set_pk; exact H].
  apply Permutation_map, Permutation_sym, order_by_number_perm.
Qed.

Lemma sorted_In self db r :
  In r (order_by_number (option_set self db)) <-> In r (option_set self db).
Proof.
  split; apply Permutation_in;
    [|apply Permutation_sym]; apply order_by_number_perm.
Qed.

Lemma renumbered_apply_saves self db :
  pk_unique db ->
  mkDB (votes db) (apply_saves (renumber_entries self db) (options db))
  = renumbered self db.
Proof.
  intros Hpk. unfold renumbered. f_equal. apply saves_assign.
  - exact Hpk.
  - unfold renumber_entries, enumerate. rewrite enumerate_from_pk.
    apply sorted_pk; exact Hpk.
  - intros iv Hiv. apply enumerate_from_In in Hiv.
    apply sorted_In in Hiv. apply filter_In in Hiv. tauto.
Qed.

(** renumberOptions either returns with [renumbered] or is refused a save
    and leaves the database as it was. *)
Lemma renumberOptions_outcome self db :
  pk_unique db ->
  renumberOptions self db = (inr tt, renumbered self db) \/
  renumberOptions self db = (inl IntegrityError, db).
Proof.
  intros Hpk. unfold renumberOptions, atomic, renumberOptions_body, bind, query.
  destruct (for_each_saves_outcome
              (enumerate (order_by_number (option_set self db))) db)
    as [H|[db' H]]; rewrite H; [left | right; reflexivity].
  f_equal. apply renumbered_apply_saves; exact Hpk.
Qed.

Lemma sorted_strict (l : list Option) :
  StronglySorted le_number l -> NoDup (map number l) ->
  StronglySorted lt_number l.
Proof.
  induction 1 as [|a l Hs IH Ha]; simpl; intros Hnd; constructor.
  - apply IH. inversion Hnd; assumption.
  - inversion Hnd as [|? ? Hn Hd]; subst.
    rewrite Forall_forall in *. intros x Hx.
    specialize (Ha x Hx). unfold le_number in Ha. unfold lt_number.
    assert (number a <> number x); [|lia].
    intros E. apply Hn. rewrite E. apply in_map; exact Hx.
Qed.

(** renumberOptions returns when the numbers of the vote are pairwise
    distinct and none is negative, and its effect is [renumbered]. *)
Lemma renumberOptions_run self db :
  pk_unique db -> distinct_nonneg self db ->
  renumberOptions self db = (inr tt, renumbered self db).
Proof.
  intros Hpk [Hu Hnn].
  unfold renumberOptions, atomic, renumberOptions_body, bind, query.
  unfold enumerate.
  rewrite (for_each_saves_ok (vote_id self)).
  - f_equal. apply renumbered_apply_saves; exact Hpk.
  - exact Hpk.
  - apply sorted_pk; exact Hpk.
  - intros v Hv. apply sorted_In, filter_In in Hv. destruct Hv as [Hv Hof].
    split; auto. unfold of_vote in Hof. apply Z.eqb_eq; exact Hof.
  - apply sorted_strict; [apply order_by_number_sorted|].
    eapply Permutation_NoDup; [|exact Hu].
    apply Permutation_map, Permutation_sym, order_by_number_perm.
  - intros v Hv. apply sorted_In in Hv. apply Hnn. apply in_map; exact Hv.
  - intros r Hr HrV Hni. exfalso. apply Hni. apply in_map.
    apply sorted_In. apply filter_In. split; auto.
    unfold of_vote. apply Z.eqb_eq; exact HrV.
Qed.

Lemma dense_distinct_nonneg self db : dense self db -> distinct_nonneg self db.
Proof.
  intros [Hu Hin]. split; auto. intros n Hn. apply Hin in Hn. lia.
Qed.

(** ** The state after renumbering *)

Lemma filter_map_commute {A} (f : A -> bool) (g : A -> A) l :
  (forall x, In x l -> f (g x) = f x) ->
  filter f (map g l) = map g (filter f l).
Proof.
  induction l as [|x l IH]; simpl; intros H; auto.
  rewrite H by auto. destruct (f x); simpl; rewrite IH; auto.
Qed.

Lemma find_map_pk (g : Option -> Option) rows r :
  NoDup (map opt_id rows) -> In r rows ->
  (forall x, opt_id (g x) = opt_id x) ->
  find (fun x => opt_id x =? opt_id r) (map g rows) = Some (g r).
Proof.
  intros Hnd Hin Hg.
  induction rows as [|x rows IH]; simpl; [simpl in Hin; tauto|].
  inversion Hnd as [|? ? Hn Hd]; subst. rewrite Hg.
  destruct (Z.eqb_spec (opt_id x) (opt_id r)) as [He|Hne].
  - do 2 f_equal. apply (pk_inj (x :: rows)); simpl; auto.
  - destruct Hin as [->|Hin]; [congruence | auto].
Qed.

(** The loop only rewrites the number of a stored row. *)
Lemma assign_row l rows r :
  NoDup (map opt_id rows) -> (forall iv, In iv l -> In (snd iv) rows) ->
  In r rows -> assign l r = set_number r (number (assign l r)).
Proof.
  intros Hnd Hl Hr. induction l as [|iv l IH]; simpl.
  - symmetry; apply set_number_same.
  - destruct (Z.eqb_spec (opt_id r) (opt_id (snd iv))) as [He|Hne].
    + assert (snd iv = r) as ->
          by (apply (pk_inj rows); auto; apply Hl; left; reflexivity).
      reflexivity.
    + apply IH. intros iv' H'; apply Hl; right; assumption.
Qed.

Lemma assign_fixed l rows r :
  NoDup (map opt_id rows) ->
  (forall iv, In iv l -> In (snd iv) rows /\ number (snd iv) = fst iv) ->
  In r rows -> assign l r = r.
Proof.
  intros Hnd Hl Hr. induction l as [|iv l IH]; simpl; auto.
  destruct (Z.eqb_spec (opt_id r) (opt_id (snd iv))) as [He|Hne].
  - destruct (Hl iv (or_introl eq_refl)) as [Hin Hnum].
    assert (snd iv = r) as Hiv by (apply (pk_inj rows); auto).
    rewrite <- Hnum, Hiv. apply set_number_same.
  - apply IH. intros iv' H'; apply Hl; right; assumption.
Qed.

Lemma enumerate_from_numbered k (qs : list Option) :
  map number qs = range_from k (List.length qs) ->
  forall iv, In iv (enumerate_from k qs) -> number (snd iv) = fst iv.
Proof.
  revert k; induction qs as [|x qs IH]; simpl; intros k H iv Hiv; [tauto|].
  injection H as Hx Hqs. destruct Hiv as [<-|Hiv]; simpl; auto.
  apply (IH (k + 1)); assumption.
Qed.

Lemma assign_enumerate_numbers k (qs : list Option) :
  NoDup (map opt_id qs) ->
  map (fun v => number (assign (enumerate_from k qs) v)) qs
  = range_from k (List.length qs).
Proof.
  revert k; induction qs as [|x qs IH]; intros k Hnd; simpl; auto.
  inversion Hnd as [|? ? Hn Hd]; subst.
  rewrite Z.eqb_refl. simpl. f_equal.
  rewrite <- (IH (k + 1) Hd). apply map_ext_in. intros v Hv.
  destruct (Z.eqb_spec (opt_id v) (opt_id x)) as [He|Hne]; auto.
  exfalso; apply Hn. rewrite <- He. apply in_map; assumption.
Qed.

Lemma renumber_entries_In self db iv :
  In iv (renumber_entries self db) -> In (snd iv) (options db).
Proof.
  intros H. apply enumerate_from_In, sorted_In, filter_In in H. tauto.
Qed.

Lemma renumbered_pk self db :
  map opt_id (options (renumbered self db)) = map opt_id (options db).
Proof.
  simpl. rewrite map_map. apply map_ext. intros; apply assign_pk.
Qed.

Lemma renumbered_pk_unique self db :
  pk_unique db -> pk_unique (renumbered self db).
Proof. unfold pk_unique. rewrite renumbered_pk. auto. Qed.

Lemma renumbered_option_set self other db :
  pk_unique db ->
  option_set other (renumbered self db)
  = map (assign (renumber_entries self db)) (option_set other db).
Proof.
  intros Hpk. unfold option_set; simpl. apply filter_map_commute.
  intros r Hr. fold (renumber_entries self db).
  rewrite (assign_row _ (options db) r Hpk (renumber_entries_In self db) Hr).
  reflexivity.
Qed.

Lemma renumbered_count self other db :
  pk_unique db ->
  qs_count (option_set other (renumbered self db)) = qs_count (option_set other db).
Proof.
  intros Hpk. unfold qs_count. rewrite renumbered_option_set by assumption.
  rewrite length_map. reflexivity.
Qed.

Lemma renumbered_numbers self db :
  pk_unique db ->
  Permutation (numbers self (renumbered self db))
              (range_from 0 (List.length (option_set self db))).
Proof.
  intros Hpk. unfold numbers. rewrite renumbered_option_set by assumption.
  rewrite map_map.
  rewrite <- (Permutation_length (order_by_number_perm (option_set self db))).
  rewrite <- (assign_enumerate_numbers 0 _ (sorted_pk self db Hpk)).
  apply Permutation_map, Permutation_sym, order_by_number_perm.
Qed.

Lemma perm_range_dense self db :
  Permutation (numbers self db) (range_from 0 (List.length (option_set self db))) ->
  dense self db.
Proof.
  intros Hp. split.
  - eapply Permutation_NoDup; [apply Permutation_sym; exact Hp|].
    apply range_from_NoDup.
  - intros k. unfold qs_count.
    rewrite <- (Z.add_0_l (Z.of_nat _)), <- (range_from_In 0 _ k).
    split; apply Permutation_in; [|apply Permutation_sym]; exact Hp.
Qed.

Lemma dense_perm_range self db :
  dense self db ->
  Permutation (numbers self db) (range_from 0 (List.length (option_set self db))).
Proof.
  intros [Hnd Hin]. apply NoDup_Permutation; auto using range_from_NoDup.
  intros k. rewrite Hin, range_from_In. unfold qs_count. lia.
Qed.

Lemma dense_sorted_numbers self db :
  dense self db ->
  map number (order_by_number (option_set self db))
  = range_from 0 (List.length (order_by_number (option_set self db))).
Proof.
  intros Hd. apply sorted_perm_eq.
  - apply sorted_map_number, order_by_number_sorted.
  - apply range_from_sorted.
  - rewrite (Permutation_length (order_by_number_perm (option_set self db))).
    rewrite <- (dense_perm_range self db Hd).
    apply Permutation_map, order_by_number_perm.
Qed.

(** Renumbering a vote that is already dense rewrites every row with the
    values it has. *)
Lemma renumbered_dense self db :
  pk_unique db -> dense self db -> renumbered self db = db.
Proof.
  intros Hpk Hd. destruct db as [vs rows]. unfold renumbered; simpl. f_equal.
  transitivity (map (fun r : Option => r) rows); [|apply map_id].
  apply map_ext_in. intros r Hr.
  apply (assign_fixed _ rows r Hpk); auto.
  intros iv Hiv. split.
  - apply (renumber_entries_In self (mkDB vs rows)). exact Hiv.
  - apply (enumerate_from_numbered 0 _ (dense_sorted_numbers _ _ Hd)). exact Hiv.
Qed.

Lemma lookup_renumbered self db r :
  pk_unique db -> In r (options db) ->
  lookup_option (opt_id r) (renumbered self db)
  = Some (assign (renumber_entries self db) r).
Proof.
  intros Hpk Hr. unfold lookup_option; simpl.
  apply find_map_pk; auto. intros; apply assign_pk.
Qed.

Lemma sorted_nth_le l j1 j2 a b :
  StronglySorted le_number l -> (j2 <= j1)%nat ->
  nth_error l j1 = Some a -> nth_error l j2 = Some b -> number b <= number a.
Proof.
  intros Hs; revert j1 j2; induction Hs as [|x l Hs IH Hall]; intros j1 j2 Hj H1 H2.
  - destruct j1; discriminate.
  - destruct j2 as [|j2], j1 as [|j1]; simpl in *; try lia.
    + injection H1 as ->; injection H2 as ->; lia.
    + injection H2 as ->. rewrite Forall_forall in Hall.
      apply Hall. eapply nth_error_In; exact H1.
    + apply (IH j1 j2); auto; lia.
Qed.

Lemma sorted_nth_lt l j1 j2 a b :
  StronglySorted le_number l ->
  nth_error l j1 = Some a -> nth_error l j2 = Some b ->
  number a < number b -> (j1 < j2)%nat.
Proof.
  intros Hs H1 H2 Hlt. destruct (Nat.lt_ge_cases j1 j2) as [|Hge]; auto.
  pose proof (sorted_nth_le l j1 j2 a b Hs Hge H1 H2). lia.
Qed.

(** The new row of an option of the vote carries its rank in the sorted
    query as number. *)
Lemma renumbered_rank self db r :
  pk_unique db -> In r (option_set self db) ->
  exists j, nth_error (order_by_number (option_set self db)) j = Some r /\
            lookup_option (opt_id r) (renumbered self db)
            = Some (set_number r (Z.of_nat j)).
Proof.
  intros Hpk Hr.
  destruct (In_nth_error _ _ (proj2 (sorted_In self db r) Hr)) as [j Hj].
  exists j; split; auto.
  rewrite lookup_renumbered by (auto; apply filter_In in Hr; tauto).
  unfold renumber_entries, enumerate.
  rewrite (assign_enumerate_nth 0 _ j r (sorted_pk self db Hpk) Hj).
  reflexivity.
Qed.

Lemma renumbered_is_dense self db :
  pk_unique db -> dense self (renumbered self db).
Proof.
  intros Hpk. apply perm_range_dense.
  assert (List.length (option_set self (renumbered self db))
          = List.length (option_set self db)) as ->
      by (rewrite renumbered_option_set by assumption; apply length_map).
  apply renumbered_numbers; exact Hpk.
Qed.

Lemma db3_pk : pk_unique Sample.db3.
Proof. unfold pk_unique; simpl. nodup_tac. Qed.

Lemma db_tampered_pk : pk_unique Sample.db_tampered.
Proof. unfold pk_unique; simpl. nodup_tac. Qed.

Lemma db_gap_pk : pk_unique Sample.db_gap.
Proof. unfold pk_unique; simpl. nodup_tac. Qed.

Lemma db_gap2_pk : pk_unique Sample.db_gap2.
Proof. unfold pk_unique; simpl. nodup_tac. Qed.

Lemma db5_pk : pk_unique Sample.db5.
Proof. unfold pk_unique; simpl. nodup_tac. Qed.

Lemma db_neg_pk : pk_unique Sample.db_neg.
Proof. unfold pk_unique; simpl. nodup_tac. Qed.


Lemma db_tampered_numbers : distinct_nonneg Sample.ballot Sample.db_tampered.
Proof.
  split; [unfold unique_together; simpl; nodup_tac | simpl; intuition lia].
Qed.

Lemma db_gap_numbers : distinct_nonneg Sample.ballot Sample.db_gap.
Proof.
  split; [unfold unique_together; simpl; nodup_tac | simpl; intuition lia].
Qed.

Lemma db_gap2_numbers : distinct_nonneg Sample.ballot Sample.db_gap2.
Proof.
  split; [unfold unique_together; simpl; nodup_tac | simpl; intuition lia].
Qed.

(** A vote whose sorted numbers read 0, 1, ... is dense. *)
Lemma dense_check self db :
  map number (order_by_number (option_set self db))
  = range_from 0 (List.length (option_set self db)) ->
  dense self db.
Proof.
  intros H. apply perm_range_dense. rewrite <- H.
  apply Permutation_map, Permutation_sym, order_by_number_perm.
Qed.

Lemma db3_dense : dense Sample.ballot Sample.db3.
Proof. apply dense_check. reflexivity. Qed.

Lemma db5_dense : dense Sample.ballot Sample.db5.
Proof. apply dense_check. reflexivity. Qed.


(** * The specification, property by property *)

(** ** renumberOptions *)

(** C2: for a vote whose options carry pairwise distinct numbers, none
    negative, renumberOptions returns; afterwards the numbers of the
    vote's options are pairwise distinct and are exactly 0..count-1, two
    options whose numbers were strictly ordered before the call are
    strictly ordered the same way afterwards, and every stored option
    keeps its key, its [count] and all fields other than [number]; the
    votes table is not written. *)
Theorem renumberOptions_spec (self : Vote) (db : DB) :
  pk_unique db -> distinct_nonneg self db ->
  exists db',
    renumberOptions self db = (inr tt, db') /\
    dense self db' /\
    qs_count (option_set self db') = qs_count (option_set self db) /\
    (forall o1 o2,
        In o1 (option_set self db) -> In o2 (option_set self db) ->
        number o1 < number o2 ->
        exists n1 n2,
          lookup_option (opt_id o1) db' = Some (set_number o1 n1) /\
          lookup_option (opt_id o2) db' = Some (set_number o2 n2) /\
          n1 < n2) /\
    (forall o, In o (options db) ->
        exists o', lookup_option (opt_id o) db' = Some o' /\
                   count o' = count o /\ o' = set_number o (number o')) /\
    map opt_id (options db') = map opt_id (options db) /\
    votes db' = votes db.
Proof.
  intros Hpk Hnum. exists (renumbered self db).
  split; [apply renumberOptions_run; assumption|].
  split; [apply renumbered_is_dense; exact Hpk|].
  split; [apply renumbered_count; exact Hpk|].
  split.
  { intros o1 o2 H1 H2 Hlt.
    destruct (renumbered_rank self db o1 Hpk H1) as (j1 & Hj1 & L1).
    destruct (renumbered_rank self db o2 Hpk H2) as (j2 & Hj2 & L2).
    exists (Z.of_nat j1), (Z.of_nat j2). repeat split; auto.
    pose proof (sorted_nth_lt _ j1 j2 o1 o2
                  (order_by_number_sorted _) Hj1 Hj2 Hlt). lia. }
  split.
  { intros o Ho. exists (assign (renumber_entries self db) o).
    split; [apply lookup_renumbered; assumption|].
    pose proof (assign_row _ (options db) o Hpk
                  (renumber_entries_In self db) Ho) as E.
    split; [rewrite E; reflexivity | exact E]. }
  split; [apply renumbered_pk | reflexivity].
Qed.

Lemma renumberOptions_spec_witness :
  exists db',
    renumberOptions Sample.ballot Sample.db_tampered = (inr tt, db') /\
    dense Sample.ballot db'.
Proof.
  destruct (renumberOptions_spec Sample.ballot Sample.db_tampered
              db_tampered_pk db_tampered_numbers)
    as (db' & Hrun & Hdense & _).
  exists db'. split; assumption.
Defined.

(** The numbers 5, 2, 9, 0 become 2, 1, 3, 0. *)
Example renumberOptions_tampered :
  map (fun r => (opt_id r, number r))
      (options (snd (renumberOptions Sample.ballot Sample.db_tampered)))
  = [(10, 2); (11, 1); (12, 3); (13, 0)].
Proof. reflexivity. Qed.

(** With options numbered -1 and 0 the first save of the loop gives the
    first option the number 0, which the second still holds: the call
    raises IntegrityError and the numbers stay -1 and 0. *)
Lemma renumberOptions_negative_refused :
  pk_unique Sample.db_neg /\
  renumberOptions Sample.ballot Sample.db_neg = (inl IntegrityError, Sample.db_neg) /\
  numbers Sample.ballot (snd (renumberOptions Sample.ballot Sample.db_neg))
  = [-1; 0] /\
  ~ dense Sample.ballot (snd (renumberOptions Sample.ballot Sample.db_neg)).
Proof.
  split; [exact db_neg_pk|]. split; [reflexivity|]. split; [reflexivity|].
  intros [_ H]. specialize (H (-1)). simpl in H.
  assert (In (-1) [-1; 0]) as Hin by (left; reflexivity).
  apply H in Hin. lia.
Qed.

(** C6: a second call of renumberOptions right after a first one ends as
    the first did (it returns if the first returned, it raises if the
    first raised) and leaves every row of the database as the first call
    left it, so the order of the options is the one a single call
    produces; both calls return when the numbers of the vote are pairwise
    distinct and none is negative. *)
Theorem renumberOptions_idempotent (self : Vote) (db : DB) :
  pk_unique db ->
  renumberOptions self (snd (renumberOptions self db)) = renumberOptions self db /\
  snd (renumberOptions self (snd (renumberOptions self db)))
  = snd (renumberOptions self db) /\
  (distinct_nonneg self db ->
   renumberOptions self (snd (renumberOptions self db))
   = (inr tt, snd (renumberOptions self db))).
Proof.
  intros Hpk.
  assert (renumberOptions self (renumbered self db)
          = (inr tt, renumbered self db)) as Hsecond.
  { rewrite renumberOptions_run.
    - rewrite renumbered_dense;
        auto using renumbered_pk_unique, renumbered_is_dense.
    - apply renumbered_pk_unique; exact Hpk.
    - apply dense_distinct_nonneg, renumbered_is_dense; exact Hpk. }
  destruct (renumberOptions_outcome self db Hpk) as [H|H].
  - rewrite H. simpl snd. rewrite Hsecond. auto.
  - rewrite H. simpl snd. rewrite H. repeat split; auto.
    intros Hnum. rewrite (renumberOptions_run self db Hpk Hnum) in H.
    discriminate.
Qed.

Lemma renumberOptions_idempotent_witness :
  renumberOptions Sample.ballot
                  (snd (renumberOptions Sample.ballot Sample.db_tampered))
  = (inr tt, snd (renumberOptions Sample.ballot Sample.db_tampered)).
Proof.
  exact (proj2 (proj2 (renumberOptions_idempotent Sample.ballot Sample.db_tampered
                         db_tampered_pk))
               db_tampered_numbers).
Defined.

(** ** canBeModified *)

(** C9: canBeModified is true exactly when the stage of the vote's status
    is INIT, and it is false at each of STAGED, OPEN, CLOSE and PUBLIC. *)
Theorem canBeModified_spec (self : Vote) :
  (canBeModified self = true <-> stage (status self) = Stage.INIT) /\
  (In (stage (status self))
      [Stage.STAGED; Stage.OPEN; Stage.CLOSE; Stage.PUBLIC] ->
   canBeModified self = false).
Proof.
  unfold canBeModified, Stage.INIT. split.
  - apply String.eqb_eq.
  - intros H. apply String.eqb_neq. intros E. rewrite E in H.
    simpl in H. intuition discriminate.
Qed.

Lemma canBeModified_spec_witness :
  canBeModified Sample.ballot = true /\
  canBeModified
    (mkVote 1 1 "Board" "board" None (mkStatus None None None Stage.OPEN)
            blank 1 2 3) = false.
Proof.
  split.
  - apply (proj1 (canBeModified_spec Sample.ballot)). reflexivity.
  - apply (proj2 (canBeModified_spec _)). simpl. right; left; reflexivity.
Defined.

(** ** An option of another vote *)

Lemma not_member_raises self option db :
  py_in (opt_id option) (values_list_id (option_set self db)) = false ->
  (deleteOption_body self option db = (inl ValueError, db) /\
   deleteOption self option db = (inl ValueError, db)) /\
  (moveUpOption_body self option db = (inl ValueError, db) /\
   moveUpOption self option db = (inl ValueError, db)) /\
  (moveDownOption_body self option db = (inl ValueError, db) /\
   moveDownOption self option db = (inl ValueError, db)).
Proof.
  intros E.
  unfold deleteOption, moveUpOption, moveDownOption, atomic,
    deleteOption_body, moveUpOption_body, moveDownOption_body, bind, query.
  rewrite E. simpl. repeat split; reflexivity.
Qed.

(** C5: when the option's key is not among the keys of the vote's
    options, deleteOption, moveUpOption and moveDownOption raise
    ValueError; the body raises before any write (its state at the raise
    is the entry state), so every table, and with it the options, the
    numbering and the bounds of every vote, is as before the call. *)
Theorem foreign_option_rejected (self : Vote) (option : Option) (db : DB) :
  ~ In (opt_id option) (values_list_id (option_set self db)) ->
  (deleteOption_body self option db = (inl ValueError, db) /\
   deleteOption self option db = (inl ValueError, db)) /\
  (moveUpOption_body self option db = (inl ValueError, db) /\
   moveUpOption self option db = (inl ValueError, db)) /\
  (moveDownOption_body self option db = (inl ValueError, db) /\
   moveDownOption self option db = (inl ValueError, db)).
Proof.
  intros Hnot. apply not_member_raises.
  destruct (py_in _ _) eqn:Hin; auto. apply py_in_spec in Hin. tauto.
Qed.

Lemma foreign_option_rejected_witness :
  deleteOption Sample.ballot (Sample.opt 20 2 0 "x" 1) Sample.db3
  = (inl ValueError, Sample.db3) /\
  moveUpOption Sample.other (Sample.opt 10 1 0 "a" 4) Sample.db3
  = (inl ValueError, Sample.db3).
Proof.
  split.
  - apply (foreign_option_rejected Sample.ballot (Sample.opt 20 2 0 "x" 1) Sample.db3).
    simpl. intuition discriminate.
  - apply (foreign_option_rejected Sample.other (Sample.opt 10 1 0 "a" 4) Sample.db3).
    simpl. intuition discriminate.
Defined.

(** ** addOption *)

Lemma find_app {A} (f : A -> bool) l1 l2 x :
  find f l1 = Some x -> find f (l1 ++ l2) = Some x.
Proof.
  induction l1 as [|y l1 IH]; simpl; [discriminate|].
  destruct (f y); auto.
Qed.

Lemma max_pk_bound (l : list Z) x : In x l -> x <= fold_right Z.max 0 l.
Proof.
  induction l as [|y l IH]; simpl; [tauto|].
  intros [->|H]; [lia | specialize (IH H); lia].
Qed.

Lemma next_pk_fresh rows : ~ In (next_pk rows) (map opt_id rows).
Proof.
  intros H. apply max_pk_bound in H. unfold next_pk in H. lia.
Qed.

Lemma option_set_app self vs rows o :
  of_vote self o = true ->
  option_set self (mkDB vs (rows ++ [o])) = option_set self (mkDB vs rows) ++ [o].
Proof.
  intros H. unfold option_set; simpl. rewrite filter_app; simpl. rewrite H.
  reflexivity.
Qed.

(** After a renumbering no option of the vote holds the number of the
    new option: the insert is never refused. *)
Lemma added_no_collision self db :
  pk_unique db -> collides (added self db) (options (renumbered self db)) = false.
Proof.
  intros Hpk. apply collides_false. intros r Hr Hv Hn. exfalso.
  assert (In r (option_set self (renumbered self db))) as Hin.
  { apply filter_In. split; auto. unfold of_vote. apply Z.eqb_eq. exact Hv. }
  pose proof (proj2 (renumbered_is_dense self db Hpk) (number r)) as Hd.
  apply (in_map number) in Hin. apply Hd in Hin.
  rewrite renumbered_count in Hin by assumption.
  unfold added, new_Option in Hn; simpl in Hn. lia.
Qed.

(** addOption either appends [added] to the renumbered table or is
    refused a save in the renumbering and leaves the database as it was. *)
Lemma addOption_outcome self db :
  pk_unique db ->
  addOption self db
  = (inr tt, mkDB (votes db) (options (renumbered self db) ++ [added self db])) \/
  addOption self db = (inl IntegrityError, db).
Proof.
  intros Hpk. unfold addOption, atomic, addOption_body, bind.
  destruct (renumberOptions_outcome self db Hpk) as [H|H]; rewrite H;
    [left | right; reflexivity].
  unfold query, insert_option. cbv beta iota zeta.
  rewrite renumbered_count by assumption.
  unfold next_pk. rewrite renumbered_pk.
  fold (next_pk (options db)). fold (added self db).
  rewrite added_no_collision by assumption. reflexivity.
Qed.

(** addOption returns when the numbers of the vote are pairwise distinct
    and none is negative. *)
Lemma addOption_run self db :
  pk_unique db -> distinct_nonneg self db ->
  addOption self db
  = (inr tt, mkDB (votes db) (options (renumbered self db) ++ [added self db])).
Proof.
  intros Hpk Hnum. unfold addOption, atomic, addOption_body, bind.
  rewrite renumberOptions_run by assumption.
  unfold query, insert_option. cbv beta iota zeta.
  rewrite renumbered_count by assumption.
  unfold next_pk. rewrite renumbered_pk.
  fold (next_pk (options db)). fold (added self db).
  rewrite added_no_collision by assumption. reflexivity.
Qed.

Lemma addOption_returns_renumbered self db db' :
  pk_unique db -> addOption self db = (inr tt, db') ->
  db' = mkDB (votes db) (options (renumbered self db) ++ [added self db]).
Proof.
  intros Hpk H. destruct (addOption_outcome self db Hpk) as [E|E];
    rewrite E in H; [injection H as <-; reflexivity | discriminate].
Qed.

Lemma range_from_snoc k n :
  range_from k (S n) = range_from k n ++ [k + Z.of_nat n].
Proof.
  revert k; induction n as [|n IH]; intros k.
  - simpl. f_equal. lia.
  - change (range_from k (S (S n))) with (k :: range_from (k + 1) (S n)).
    rewrite IH. simpl. do 3 f_equal. lia.
Qed.

Lemma added_dense self db :
  pk_unique db ->
  dense self (mkDB (votes db) (options (renumbered self db) ++ [added self db])).
Proof.
  intros Hpk. apply perm_range_dense.
  assert (of_vote self (added self db) = true) as Hof
      by (unfold of_vote, added, new_Option; simpl; apply Z.eqb_refl).
  unfold numbers.
  rewrite (option_set_app self (votes db) (options (renumbered self db)) _ Hof).
  change (mkDB (votes db) (options (renumbered self db))) with (renumbered self db).
  rewrite length_app, map_app. simpl List.length. rewrite Nat.add_1_r.
  rewrite range_from_snoc. apply Permutation_app.
  - apply dense_perm_range, renumbered_is_dense; exact Hpk.
  - simpl. unfold qs_count.
    rewrite renumbered_option_set by assumption. rewrite length_map.
    apply Permutation_refl.
Qed.

Lemma added_pk_unique self db :
  pk_unique db ->
  pk_unique (mkDB (votes db) (options (renumbered self db) ++ [added self db])).
Proof.
  intros Hpk. unfold pk_unique.
  change (NoDup (map opt_id (options (renumbered self db) ++ [added self db]))).
  rewrite map_app, renumbered_pk. simpl.
  apply NoDup_app; repeat split; auto.
  - repeat constructor. simpl; tauto.
  - intros x Hx [<-|[]]. exact (next_pk_fresh _ Hx).
Qed.

Lemma renumbered_order self db o1 o2 :
  pk_unique db -> In o1 (option_set self db) -> In o2 (option_set self db) ->
  number o1 < number o2 ->
  exists n1 n2,
    lookup_option (opt_id o1) (renumbered self db) = Some (set_number o1 n1) /\
    lookup_option (opt_id o2) (renumbered self db) = Some (set_number o2 n2) /\
    0 <= n1 < n2 /\ n2 < qs_count (option_set self db).
Proof.
  intros Hpk H1 H2 Hlt.
  destruct (renumbered_rank self db o1 Hpk H1) as (j1 & Hj1 & L1).
  destruct (renumbered_rank self db o2 Hpk H2) as (j2 & Hj2 & L2).
  exists (Z.of_nat j1), (Z.of_nat j2). repeat split; auto; try lia.
  - pose proof (sorted_nth_lt _ j1 j2 o1 o2
                  (order_by_number_sorted _) Hj1 Hj2 Hlt). lia.
  - assert (j2 < List.length (order_by_number (option_set self db)))%nat as Hb
        by (apply nth_error_Some; congruence).
    rewrite (Permutation_length (order_by_number_perm _)) in Hb.
    unfold qs_count. lia.
Qed.

Lemma find_app_skip (k : Z) (l1 l2 : list Option) :
  ~ In k (map opt_id l1) ->
  find (fun r => opt_id r =? k) (l1 ++ l2) = find (fun r => opt_id r =? k) l2.
Proof.
  induction l1 as [|x l1 IH]; simpl; intros H; auto.
  destruct (Z.eqb_spec (opt_id x) k); [exfalso; auto | apply IH; tauto].
Qed.

(** C8: for a vote whose options carry pairwise distinct numbers, none
    negative, addOption returns.  The options the vote had are renumbered
    first: each is stored with a number in 0..count-1, their relative
    order is kept and the table is the one renumberOptions leaves.  Then
    exactly one row is appended, with a new key, for this vote, numbered
    with the count of the vote's options before the insertion and named
    "Option #" followed by that count plus one; the vote is numbered
    0..count afterwards.  With three options numbered 0, 1, 2 the vote
    has four options afterwards, the new one numbered 3 and named
    "Option #4". *)
Theorem addOption_spec (self : Vote) (db : DB) :
  pk_unique db -> distinct_nonneg self db ->
  exists db' opt,
    addOption self db = (inr tt, db') /\
    options db' = options (snd (renumberOptions self db)) ++ [opt] /\
    (forall o, In o (option_set self db) ->
       exists n, lookup_option (opt_id o) db' = Some (set_number o n) /\
                 0 <= n < qs_count (option_set self db)) /\
    (forall o1 o2, In o1 (option_set self db) -> In o2 (option_set self db) ->
       number o1 < number o2 ->
       exists n1 n2,
         lookup_option (opt_id o1) db' = Some (set_number o1 n1) /\
         lookup_option (opt_id o2) db' = Some (set_number o2 n2) /\
         n1 < n2) /\
    dense self db' /\
    ~ In (opt_id opt) (map opt_id (options db)) /\
    vote opt = vote_id self /\
    number opt = qs_count (option_set self db) /\
    name opt
    = String.append "Option #" (str (qs_count (option_set self db) + 1)) /\
    qs_count (option_set self db') = qs_count (option_set self db) + 1 /\
    (Permutation (numbers self db) [0; 1; 2] ->
     qs_count (option_set self db') = 4 /\
     number opt = 3 /\ name opt = "Option #4").
Proof.
  intros Hpk Hnum.
  exists (mkDB (votes db) (options (renumbered self db) ++ [added self db])),
         (added self db).
  rewrite renumberOptions_run by assumption.
  assert (option_set self
            (mkDB (votes db) (options (renumbered self db) ++ [added self db]))
          = option_set self (renumbered self db) ++ [added self db]) as Hset.
  { apply (option_set_app self (votes db) (options (renumbered self db))).
    unfold of_vote, added, new_Option; simpl. apply Z.eqb_refl. }
  assert (qs_count
            (option_set self
               (mkDB (votes db) (options (renumbered self db) ++ [added self db])))
          = qs_count (option_set self db) + 1) as Hcount.
  { rewrite Hset. unfold qs_count. rewrite length_app; simpl.
    rewrite renumbered_option_set by assumption. rewrite length_map. lia. }
  split; [apply addOption_run; assumption|].
  split; [reflexivity|].
  split.
  { intros o Ho.
    destruct (renumbered_rank self db o Hpk Ho) as (j & Hj & L).
    exists (Z.of_nat j). split.
    - unfold lookup_option. cbn [options]. apply find_app. exact L.
    - assert (j < List.length (order_by_number (option_set self db)))%nat as Hb
          by (apply nth_error_Some; congruence).
      rewrite (Permutation_length (order_by_number_perm _)) in Hb.
      unfold qs_count. lia. }
  split.
  { intros o1 o2 H1 H2 Hlt.
    destruct (renumbered_order self db o1 o2 Hpk H1 H2 Hlt)
      as (n1 & n2 & L1 & L2 & Hn & _).
    exists n1, n2. repeat split; try lia;
      unfold lookup_option; cbn [options]; apply find_app; assumption. }
  split; [exact (added_dense self db Hpk)|].
  split; [apply next_pk_fresh|].
  split; [reflexivity|].
  split; [reflexivity|].
  split; [reflexivity|].
  split; [exact Hcount|].
  intros Hp. rewrite Hcount.
  assert (qs_count (option_set self db) = 3) as E.
  { unfold qs_count. apply Permutation_length in Hp. unfold numbers in Hp.
    rewrite length_map in Hp. rewrite Hp. reflexivity. }
  unfold added, new_Option; simpl. rewrite E. repeat split.
Qed.

(** On the options numbered 5, 2, 9, 0 the call renumbers and appends the
    option numbered 4; on the options numbered 0, 1, 2 it appends the
    option numbered 3. *)
Lemma addOption_spec_witness :
  (exists db' opt,
     addOption Sample.ballot Sample.db_tampered = (inr tt, db') /\
     options db'
     = options (snd (renumberOptions Sample.ballot Sample.db_tampered)) ++ [opt] /\
     dense Sample.ballot db' /\ number opt = 4 /\ name opt = "Option #5") /\
  (exists db' opt,
     addOption Sample.ballot Sample.db3 = (inr tt, db') /\
     options db' = options (snd (renumberOptions Sample.ballot Sample.db3)) ++ [opt] /\
     qs_count (option_set Sample.ballot db') = 4 /\
     number opt = 3 /\ name opt = "Option #4").
Proof.
  split.
  - destruct (addOption_spec Sample.ballot Sample.db_tampered
                db_tampered_pk db_tampered_numbers)
      as (db' & opt & Hrun & Hopts & _ & _ & Hd & _ & _ & Hn & Hname & _).
    exists db', opt. split; [exact Hrun|]. split; [exact Hopts|].
    split; [exact Hd|].
    split; [rewrite Hn | rewrite Hname]; reflexivity.
  - destruct (addOption_spec Sample.ballot Sample.db3 db3_pk
                (dense_distinct_nonneg _ _ db3_dense))
      as (db' & opt & Hrun & Hopts & _ & _ & _ & _ & _ & _ & _ & _ & H3).
    exists db', opt. split; [exact Hrun|]. split; [exact Hopts|]. apply H3.
    simpl. apply Permutation_refl.
Defined.

(** The table after addOption on the sample: the old rows, then the new one. *)
Example addOption_sample :
  map (fun r => (opt_id r, vote r, number r, name r, count r))
      (options (snd (addOption Sample.ballot Sample.db3)))
  = [(10, 1, 0, "a", 4); (11, 1, 1, "b", 0); (20, 2, 0, "x", 1);
     (12, 1, 2, "c", 7); (21, 1, 3, "Option #4", 0)].
Proof. reflexivity. Qed.

(** The options numbered 5, 2, 9, 0 are stored as 2, 1, 3, 0 before the
    new option is appended with number 4. *)
Example addOption_tampered :
  map (fun r => (opt_id r, number r, name r))
      (options (snd (addOption Sample.ballot Sample.db_tampered)))
  = [(10, 2, "a"); (11, 1, "b"); (12, 3, "c"); (13, 0, "d");
     (14, 4, "Option #5")].
Proof. reflexivity. Qed.

(** With options numbered -1 and 0 the renumbering inside addOption is
    refused its first save: the call raises IntegrityError and the vote
    has its two options as before. *)
Lemma addOption_negative_refused :
  pk_unique Sample.db_neg /\
  addOption Sample.ballot Sample.db_neg = (inl IntegrityError, Sample.db_neg) /\
  qs_count (option_set Sample.ballot (snd (addOption Sample.ballot Sample.db_neg)))
  = 2.
Proof.
  split; [exact db_neg_pk|]. split; reflexivity.
Qed.

(** C10: addOption writes no vote, so the stored bounds of every vote are
    as before, and every option stored before the call is stored
    afterwards under its key with the same name, description, count and
    links, only its number may differ; this holds for every vote, whether
    the call returns or raises.  When the call returns, the table is the
    old rows followed by one new row, which has count 0 and empty
    description, picture and link fields; the call returns when the
    numbers of the vote are pairwise distinct and none is negative. *)
Theorem addOption_frame (self : Vote) (db : DB) :
  pk_unique db ->
  (votes (snd (addOption self db)) = votes db /\
   forall o, In o (options db) ->
     exists o', lookup_option (opt_id o) (snd (addOption self db)) = Some o' /\
                o' = set_number o (number o') /\
                name o' = name o /\ description o' = description o /\
                count o' = count o) /\
  (forall db', addOption self db = (inr tt, db') ->
     exists olds opt,
       options db' = olds ++ [opt] /\
       map opt_id olds = map opt_id (options db) /\
       count opt = 0 /\ description opt = blank /\
       picture_url opt = blank /\ personal_link opt = blank /\
       link_name opt = blank) /\
  (distinct_nonneg self db -> exists db', addOption self db = (inr tt, db')).
Proof.
  intros Hpk. split; [|split].
  - destruct (addOption_outcome self db Hpk) as [E|E]; rewrite E; simpl snd.
    + split; [reflexivity|]. intros o Ho.
      exists (assign (renumber_entries self db) o).
      pose proof (assign_row _ (options db) o Hpk
                    (renumber_entries_In self db) Ho) as Ea.
      split.
      * unfold lookup_option; simpl options. apply find_app.
        apply (lookup_renumbered self db o Hpk Ho).
      * split; [exact Ea|]. rewrite Ea. repeat split.
    + split; [reflexivity|]. intros o Ho. exists o.
      split; [apply find_pk; assumption|].
      split; [symmetry; apply set_number_same | repeat split].
  - intros db' Hrun.
    rewrite (addOption_returns_renumbered self db db' Hpk Hrun).
    exists (options (renumbered self db)), (added self db).
    split; [reflexivity|]. split; [apply renumbered_pk | repeat split].
  - intros Hnum. eexists. apply addOption_run; assumption.
Qed.

(** Options numbered 5, 2, 9, 0: the call returns, the votes table is as
    before and the last row of the options table is the new option. *)
Lemma addOption_frame_witness :
  votes (snd (addOption Sample.ballot Sample.db_tampered))
  = votes Sample.db_tampered /\
  exists db' olds opt,
    addOption Sample.ballot Sample.db_tampered = (inr tt, db') /\
    options db' = olds ++ [opt] /\
    map opt_id olds = map opt_id (options Sample.db_tampered) /\
    count opt = 0 /\ description opt = blank.
Proof.
  destruct (addOption_frame Sample.ballot Sample.db_tampered db_tampered_pk)
    as [[Hv _] [Hnew Hret]].
  split; [exact Hv|].
  destruct (Hret db_tampered_numbers) as [db' Hrun].
  destruct (Hnew db' Hrun) as (olds & opt & Ho & Hids & Hc & Hd & _).
  exists db', olds, opt. repeat split; assumption.
Defined.

(** ** deleteOption *)

Lemma option_set_vote_id a b db :
  vote_id a = vote_id b -> option_set a db = option_set b db.
Proof.
  intros H. unfold option_set. apply filter_ext. intros o.
  unfold of_vote. rewrite H. reflexivity.
Qed.

Lemma renumberOptions_vote_id a b db :
  vote_id a = vote_id b -> renumberOptions a db = renumberOptions b db.
Proof.
  intros H. unfold renumberOptions, atomic, renumberOptions_body, bind, query.
  rewrite (option_set_vote_id a b db H). reflexivity.
Qed.

Lemma clamp_votes_eq self c :
  clamp_votes self c
  = set_max_votes (set_min_votes self (Z.min (min_votes self) c))
                  (Z.min (max_votes self) c).
Proof.
  unfold clamp_votes. rewrite !Z.gtb_ltb.
  destruct (Z.ltb_spec c (min_votes self)) as [H1|H1].
  - simpl max_votes.
    destruct (Z.ltb_spec c (max_votes self)) as [H2|H2];
      destruct self; unfold set_max_votes, set_min_votes; simpl in *;
      f_equal; lia.
  - destruct (Z.ltb_spec c (max_votes self)) as [H2|H2];
      destruct self; unfold set_max_votes, set_min_votes; simpl in *;
      f_equal; lia.
Qed.

Lemma clamp_votes_id self c : vote_id (clamp_votes self c) = vote_id self.
Proof. rewrite clamp_votes_eq. reflexivity. Qed.

Lemma deleted_pk_unique option db : pk_unique db -> pk_unique (deleted option db).
Proof. intros H. apply NoDup_map_filter. exact H. Qed.

Lemma filter_swap {A} (f g : A -> bool) l :
  filter f (filter g l) = filter g (filter f l).
Proof.
  induction l as [|x l IH]; simpl; auto.
  destruct (f x) eqn:Hf, (g x) eqn:Hg; simpl; rewrite ?Hf, ?Hg, IH; reflexivity.
Qed.

Lemma delete_row_notin o l :
  ~ In (opt_id o) (map opt_id l) -> delete_row o l = l.
Proof.
  induction l as [|x l IH]; simpl; intros H; auto.
  unfold same_pk at 1.
  destruct (Z.eqb_spec (opt_id x) (opt_id o)) as [He|Hne]; simpl.
  - exfalso; apply H; auto.
  - f_equal. apply IH. tauto.
Qed.





(** Past the membership test deleteOption stands or falls with the
    renumbering of the survivors. *)
Lemma deleteOption_unfold self option db :
  In (opt_id option) (values_list_id (option_set self db)) ->
  let self' := clamp_votes self (qs_count (option_set self (deleted option db))) in
  deleteOption self option db
  = match renumberOptions self
            (mkDB (upsert_vote self' (votes db)) (delete_row option (options db)))
    with
    | (inl e, _) => (inl e, db)
    | (inr _, db') => (inr self', db')
    end.
Proof.
  intros Hin self'.
  unfold deleteOption, atomic, deleteOption_body, bind, query.
  rewrite (proj2 (py_in_spec _ _) Hin). cbn [negb].
  unfold delete_option, save_vote, write, ret. cbv beta iota zeta.
  fold (deleted option db).
  fold (clamp_votes self (qs_count (option_set self (deleted option db)))).
  fold self'. cbn [votes options deleted].
  rewrite (renumberOptions_vote_id self' self) by apply clamp_votes_id.
  destruct (renumberOptions self _) as [[e|u] d]; reflexivity.
Qed.



(** deleteOption on an option of the vote either returns as above or is
    refused a save in the renumbering and leaves the database as it was. *)
Lemma deleteOption_outcome self option db :
  pk_unique db ->
  In (opt_id option) (values_list_id (option_set self db)) ->
  let self' := clamp_votes self (qs_count (option_set self (deleted option db))) in
  deleteOption self option db
  = (inr self',
     renumbered self
       (mkDB (upsert_vote self' (votes db)) (delete_row option (options db)))) \/
  deleteOption self option db = (inl IntegrityError, db).
Proof.
  intros Hpk Hin self'. rewrite deleteOption_unfold by assumption.
  cbv zeta. fold self'.
  destruct (renumberOptions_outcome self
              (mkDB (upsert_vote self' (votes db)) (delete_row option (options db)))
              (deleted_pk_unique option db Hpk)) as [H|H];
    rewrite H; auto.
Qed.



(** A vote with min_votes 2, max_votes 3 and three options: after one is
    deleted the bounds are 2 and 2 and the remaining options are numbered
    0 and 1. *)
Example deleteOption_sample :
  let r := deleteOption Sample.ballot (Sample.opt 11 1 1 "b" 0) Sample.db3 in
  match fst r with
  | inr self' => (min_votes self', max_votes self')
  | inl _ => (-1, -1)
  end = (2, 2) /\
  map (fun o => (opt_id o, number o)) (option_set Sample.ballot (snd r))
  = [(10, 0); (12, 1)].
Proof. split; reflexivity. Qed.


(** ** moveUpOption and moveDownOption *)

Lemma option_set_ids self db o :
  In o (option_set self db) ->
  In (opt_id o) (values_list_id (option_set self db)).
Proof. apply in_map. Qed.

Lemma option_set_In self db o : In o (option_set self db) -> In o (options db).
Proof. intros H. apply filter_In in H. tauto. Qed.

Lemma option_set_member self db o :
  pk_unique db -> In o (options db) ->
  In (opt_id o) (values_list_id (option_set self db)) ->
  In o (option_set self db).
Proof.
  intros Hpk Ho Hid. apply in_map_iff in Hid. destruct Hid as (r & E & Hr).
  pose proof (option_set_In self db r Hr) as Hr'.
  apply (pk_inj (options db)) in E; auto. congruence.
Qed.

Lemma filter_number_head n l :
  In n (map number l) ->
  exists x rest, filter_number n l = x :: rest /\ In x l /\ number x = n.
Proof.
  intros H. apply in_map_iff in H. destruct H as (y & Hy & Hin).
  assert (In y (filter_number n l)) as Hf
      by (apply filter_In; split; auto; apply Z.eqb_eq; exact Hy).
  destruct (filter_number n l) as [|x rest] eqn:E; [destruct Hf|].
  exists x, rest. split; auto.
  assert (In x (filter_number n l)) as Hx by (rewrite E; left; reflexivity).
  apply filter_In in Hx. destruct Hx as [Hx1 Hx2].
  apply Z.eqb_eq in Hx2. auto.
Qed.

Lemma filter_number_In n l x rest :
  filter_number n l = x :: rest -> In x l.
Proof.
  intros H. assert (In x (filter_number n l)) as Hx by (rewrite H; left; reflexivity).
  apply filter_In in Hx. tauto.
Qed.

Lemma dense_number_range self db o :
  dense self db -> In o (option_set self db) ->
  0 <= number o < qs_count (option_set self db).
Proof.
  intros [_ H] Ho. apply H. apply in_map. exact Ho.
Qed.

(** The neighbour the move looks for exists in a dense vote. *)
Lemma dense_neighbour self db n :
  dense self db -> 0 <= n < qs_count (option_set self db) ->
  exists x rest,
    filter_number n (option_set self db) = x :: rest /\
    In x (option_set self db) /\ number x = n.
Proof.
  intros [_ H] Hn. apply filter_number_head. apply H. exact Hn.
Qed.

Lemma dense_vote_id a b db :
  vote_id a = vote_id b -> dense a db -> dense b db.
Proof.
  intros E. unfold dense, unique_together, numbers.
  rewrite (option_set_vote_id a b db E). auto.
Qed.

Lemma returns_member self option db :
  (forall x db', deleteOption self option db = (inr x, db') ->
                 In (opt_id option) (values_list_id (option_set self db))) /\
  (forall x db', moveUpOption self option db = (inr x, db') ->
                 In (opt_id option) (values_list_id (option_set self db))) /\
  (forall x db', moveDownOption self option db = (inr x, db') ->
                 In (opt_id option) (values_list_id (option_set self db))).
Proof.
  destruct (py_in (opt_id option) (values_list_id (option_set self db))) eqn:E.
  - apply py_in_spec in E. repeat split; intros; exact E.
  - destruct (not_member_raises self option db E) as ((_ & D) & (_ & U) & (_ & W)).
    repeat split; intros x db' H; rewrite ?D, ?U, ?W in H; discriminate.
Qed.

(** A move after its renumbering has returned. *)
Lemma moveDownOption_unfold self option db R :
  In (opt_id option) (values_list_id (option_set self db)) ->
  renumberOptions self db = (inr tt, R) ->
  moveDownOption self option db =
  if number option =? 0 then (inr option, R)
  else
    match filter_number (number option - 1) (option_set self R) with
    | [] => (inl IndexError, db)
    | below :: _ =>
        if collides (set_number below (number option)) (options R)
        then (inl IntegrityError, db)
        else if collides (set_number option (number option - 1))
                         (upsert_option (set_number below (number option))
                                        (options R))
        then (inl IntegrityError, db)
        else
          (inr (set_number option (number option - 1)),
           two_saves (set_number option (number option - 1))
                     (set_number below (number option)) R)
    end.
Proof.
  intros Hin HR.
  unfold moveDownOption, atomic, moveDownOption_body, bind, query.
  rewrite (proj2 (py_in_spec _ _) Hin). cbn [negb]. rewrite HR.
  destruct (number option =? 0); [reflexivity|].
  destruct (filter_number (number option - 1) (option_set self R))
    as [|below rest]; [reflexivity|].
  unfold save_option.
  destruct (collides (set_number below (number option)) (options R));
    [reflexivity|]. cbn [options].
  destruct (collides _ _); reflexivity.
Qed.

Lemma moveUpOption_unfold self option db R :
  In (opt_id option) (values_list_id (option_set self db)) ->
  renumberOptions self db = (inr tt, R) ->
  moveUpOption self option db =
  if number option =? qs_count (option_set self R) - 1 then (inr option, R)
  else
    match filter_number (number option + 1) (option_set self R) with
    | [] => (inl IndexError, db)
    | above :: _ =>
        if collides (set_number above (number option)) (options R)
        then (inl IntegrityError, db)
        else if collides (set_number option (number option + 1))
                         (upsert_option (set_number above (number option))
                                        (options R))
        then (inl IntegrityError, db)
        else
          (inr (set_number option (number option + 1)),
           two_saves (set_number option (number option + 1))
                     (set_number above (number option)) R)
    end.
Proof.
  intros Hin HR.
  unfold moveUpOption, atomic, moveUpOption_body, bind, query.
  rewrite (proj2 (py_in_spec _ _) Hin). cbn [negb]. rewrite HR.
  destruct (number option =? qs_count (option_set self R) - 1); [reflexivity|].
  destruct (filter_number (number option + 1) (option_set self R))
    as [|above rest]; [reflexivity|].
  unfold save_option.
  destruct (collides (set_number above (number option)) (options R));
    [reflexivity|]. cbn [options].
  destruct (collides _ _); reflexivity.
Qed.

(** A move whose renumbering raises. *)
Lemma move_renumber_raises self option db e d :
  In (opt_id option) (values_list_id (option_set self db)) ->
  renumberOptions self db = (inl e, d) ->
  moveUpOption self option db = (inl e, db) /\
  moveDownOption self option db = (inl e, db).
Proof.
  intros Hin HR.
  unfold moveUpOption, moveDownOption, atomic,
    moveUpOption_body, moveDownOption_body, bind, query.
  rewrite (proj2 (py_in_spec _ _) Hin). cbn [negb]. rewrite HR. auto.
Qed.

(** C7, as the code has it: for a vote whose options carry pairwise
    distinct numbers, none negative, moveDownOption on an option of the
    vote whose number is 0 returns the option and leaves the database as
    renumberOptions leaves it; on an option whose number is count-1,
    moveUpOption does the same.  When the vote's options are already
    numbered 0..count-1, that is the database of before the call: no row
    changes. *)
Theorem move_at_boundary (self : Vote) (option : Option) (db : DB) :
  pk_unique db -> distinct_nonneg self db -> In option (option_set self db) ->
  (number option = 0 ->
   moveDownOption self option db = (inr option, snd (renumberOptions self db)) /\
   (dense self db -> moveDownOption self option db = (inr option, db))) /\
  (number option = qs_count (option_set self db) - 1 ->
   moveUpOption self option db = (inr option, snd (renumberOptions self db)) /\
   (dense self db -> moveUpOption self option db = (inr option, db))).
Proof.
  intros Hpk Hnum Hin. pose proof (option_set_ids self db option Hin) as Hid.
  pose proof (renumberOptions_run self db Hpk Hnum) as HR.
  rewrite HR. simpl snd. split; intros Hn.
  - rewrite (moveDownOption_unfold self option db _ Hid HR).
    rewrite Hn. simpl. split; auto.
    intros Hd. rewrite renumbered_dense by assumption. reflexivity.
  - rewrite (moveUpOption_unfold self option db _ Hid HR).
    rewrite renumbered_count by assumption.
    rewrite Hn, Z.eqb_refl. split; auto.
    intros Hd. rewrite renumbered_dense by assumption. reflexivity.
Qed.

Lemma move_at_boundary_witness :
  moveDownOption Sample.ballot (Sample.opt 10 1 0 "a" 4) Sample.db3
  = (inr (Sample.opt 10 1 0 "a" 4), Sample.db3) /\
  moveUpOption Sample.ballot (Sample.opt 12 1 2 "c" 7) Sample.db3
  = (inr (Sample.opt 12 1 2 "c" 7), Sample.db3).
Proof.
  split.
  - apply (move_at_boundary Sample.ballot (Sample.opt 10 1 0 "a" 4) Sample.db3).
    + exact db3_pk.
    + exact (dense_distinct_nonneg _ _ db3_dense).
    + simpl. left; reflexivity.
    + reflexivity.
    + exact db3_dense.
  - apply (move_at_boundary Sample.ballot (Sample.opt 12 1 2 "c" 7) Sample.db3).
    + exact db3_pk.
    + exact (dense_distinct_nonneg _ _ db3_dense).
    + simpl. right; right; left; reflexivity.
    + reflexivity.
    + exact db3_dense.
Defined.

(** With options numbered 0 and 5, moveDownOption on the option numbered 0
    returns without error and the row of the other option is rewritten
    from 5 to 1. *)
Lemma moveDownOption_boundary_rewrites :
  In (Sample.opt 10 1 0 "a" 4) (option_set Sample.ballot Sample.db_gap2) /\
  number (Sample.opt 10 1 0 "a" 4) = 0 /\
  fst (moveDownOption Sample.ballot (Sample.opt 10 1 0 "a" 4) Sample.db_gap2)
  = inr (Sample.opt 10 1 0 "a" 4) /\
  lookup_option 11 Sample.db_gap2 = Some (Sample.opt 11 1 5 "b" 0) /\
  lookup_option 11
    (snd (moveDownOption Sample.ballot (Sample.opt 10 1 0 "a" 4) Sample.db_gap2))
  = Some (Sample.opt 11 1 1 "b" 0) /\
  snd (moveDownOption Sample.ballot (Sample.opt 10 1 0 "a" 4) Sample.db_gap2)
  <> Sample.db_gap2.
Proof.
  repeat split; try (simpl; auto; fail).
  vm_compute. discriminate.
Qed.

(** On a dense vote the renumbering changes nothing. *)
Lemma renumberOptions_dense self db :
  pk_unique db -> dense self db -> renumberOptions self db = (inr tt, db).
Proof.
  intros Hpk Hd.
  rewrite renumberOptions_run by auto using dense_distinct_nonneg.
  rewrite renumbered_dense by assumption. reflexivity.
Qed.

Lemma same_vote self db a b :
  In a (option_set self db) -> In b (option_set self db) -> vote a = vote b.
Proof.
  intros Ha Hb. apply filter_In in Ha, Hb. destruct Ha as [_ Ha], Hb as [_ Hb].
  unfold of_vote in *. apply Z.eqb_eq in Ha, Hb. congruence.
Qed.

(** On a dense vote the first save of a move would repeat the number the
    option's own row holds. *)
Lemma moveUpOption_dense_refused self option db :
  pk_unique db -> dense self db -> In option (option_set self db) ->
  number option < qs_count (option_set self db) - 1 ->
  moveUpOption self option db = (inl IntegrityError, db).
Proof.
  intros Hpk Hd Hin Hk.
  pose proof (option_set_ids self db option Hin) as Hid.
  pose proof (dense_number_range self db option Hd Hin) as Hrange.
  rewrite (moveUpOption_unfold self option db db Hid
             (renumberOptions_dense self db Hpk Hd)).
  destruct (Z.eqb_spec (number option) (qs_count (option_set self db) - 1));
    [lia|].
  destruct (dense_neighbour self db (number option + 1) Hd)
    as (above & rest & Hf & Ha & Hna); [lia|].
  rewrite Hf.
  rewrite (collides_true _ (options db) option); auto.
  - apply (option_set_In self db option Hin).
  - simpl. apply (same_vote self db); assumption.
  - simpl. intros E. symmetry in E.
    apply (pk_inj (options db)) in E; eauto using option_set_In.
    subst above. lia.
Qed.

Lemma moveDownOption_dense_refused self option db :
  pk_unique db -> dense self db -> In option (option_set self db) ->
  0 < number option ->
  moveDownOption self option db = (inl IntegrityError, db).
Proof.
  intros Hpk Hd Hin Hk.
  pose proof (option_set_ids self db option Hin) as Hid.
  pose proof (dense_number_range self db option Hd Hin) as Hrange.
  rewrite (moveDownOption_unfold self option db db Hid
             (renumberOptions_dense self db Hpk Hd)).
  destruct (Z.eqb_spec (number option) 0); [lia|].
  destruct (dense_neighbour self db (number option - 1) Hd)
    as (below & rest & Hf & Hb & Hnb); [lia|].
  rewrite Hf.
  rewrite (collides_true _ (options db) option); auto.
  - apply (option_set_In self db option Hin).
  - simpl. apply (same_vote self db); assumption.
  - simpl. intros E. symmetry in E.
    apply (pk_inj (options db)) in E; eauto using option_set_In.
    subst below. lia.
Qed.

(** C3, what the code does: in a vote whose options are numbered 0..n-1,
    neither move exchanges anything.  moveUpOption on the option of the
    vote at number k < n-1 first saves the option found at k+1 with the
    number k, while the option's own row still holds k: the store refuses
    the save, the call raises IntegrityError and the database is as
    before.  moveDownOption on the option at number k > 0 fails in the
    same way on the option found at k-1. *)
Theorem move_on_dense_refused (self : Vote) (option : Option) (db : DB) :
  pk_unique db -> dense self db -> In option (option_set self db) ->
  (number option < qs_count (option_set self db) - 1 ->
   moveUpOption self option db = (inl IntegrityError, db)) /\
  (0 < number option ->
   moveDownOption self option db = (inl IntegrityError, db)).
Proof.
  intros Hpk Hd Hin. split; intros Hk.
  - apply moveUpOption_dense_refused; assumption.
  - apply moveDownOption_dense_refused; assumption.
Qed.

(** Options numbered 0..4, the option at 2: both moves are refused. *)
Lemma move_on_dense_refused_witness :
  moveUpOption Sample.ballot (Sample.opt 12 1 2 "c" 7) Sample.db5
  = (inl IntegrityError, Sample.db5) /\
  moveDownOption Sample.ballot (Sample.opt 12 1 2 "c" 7) Sample.db5
  = (inl IntegrityError, Sample.db5).
Proof.
  assert (In (Sample.opt 12 1 2 "c" 7) (option_set Sample.ballot Sample.db5)) as Hin
      by (simpl; right; right; left; reflexivity).
  destruct (move_on_dense_refused Sample.ballot (Sample.opt 12 1 2 "c" 7)
              Sample.db5 db5_pk db5_dense Hin) as [Hup Hdown].
  split; [apply Hup | apply Hdown]; simpl; lia.
Defined.

(** ** Sequences of calls *)

(** C1, at a vote whose options are numbered 0, 3, 4: moveDownOption on
    the option numbered 3 returns without error.  renumberOptions has
    stored the numbers 0, 1, 2, the instance passed in still carries 3,
    so the option stored at 2 is given 3 and the instance is saved with 2:
    the vote ends with the numbers 0, 2, 3, which are not 0..count-1. *)
Theorem moveDownOption_gap_not_dense :
  In (Sample.opt 11 1 3 "b" 0) (option_set Sample.ballot Sample.db_gap) /\
  exists db',
    moveDownOption Sample.ballot (Sample.opt 11 1 3 "b" 0) Sample.db_gap
    = (inr (Sample.opt 11 1 2 "b" 0), db') /\
    numbers Sample.ballot db' = [0; 2; 3] /\
    qs_count (option_set Sample.ballot db') = 3 /\
    ~ dense Sample.ballot db'.
Proof.
  split; [simpl; right; left; reflexivity|].
  eexists. split; [reflexivity|].
  split; [reflexivity|]. split; [reflexivity|].
  intros [_ H]. specialize (H 1). simpl in H.
  assert (0 <= 1 < 3) as H1 by lia. apply H in H1. intuition discriminate.
Qed.

(** *** Calls on a dense vote keep it dense *)

Lemma step_preserves s c s' :
  step s c s' -> pk_unique (snd s) -> dense (fst s) (snd s) ->
  pk_unique (snd s') /\ dense (fst s') (snd s') /\
  vote_id (fst s') = vote_id (fst s).
Proof.
  intros H. destruct H as [self db db' Hrun | self o db self' db' Ho Hrun
                          | self o o' db db' Ho Hrun | self o o' db db' Ho Hrun];
    simpl; intros Hpk Hd.
  - rewrite (addOption_returns_renumbered self db db' Hpk Hrun).
    split; [exact (added_pk_unique self db Hpk)|].
    split; [exact (added_dense self db Hpk) | reflexivity].
  - pose proof (proj1 (returns_member self o db) _ _ Hrun) as Hid.
    destruct (deleteOption_outcome self o db Hpk Hid) as [R|R];
      cbv zeta in R; rewrite R in Hrun; [|discriminate].
    injection Hrun as <- <-.
    assert (pk_unique
              (mkDB (upsert_vote
                       (clamp_votes self (qs_count (option_set self (deleted o db))))
                       (votes db))
                    (delete_row o (options db)))) as Hpk2
        by (apply (deleted_pk_unique o db Hpk)).
    split; [apply renumbered_pk_unique; exact Hpk2|].
    split; [|apply clamp_votes_id].
    apply (dense_vote_id self); [symmetry; apply clamp_votes_id|].
    apply renumbered_is_dense; exact Hpk2.
  - pose proof (proj1 (proj2 (returns_member self o db)) _ _ Hrun) as Hid.
    pose proof (option_set_member self db o Hpk Ho Hid) as Hin.
    pose proof (dense_number_range self db o Hd Hin) as Hr.
    destruct (Z.eq_dec (number o) (qs_count (option_set self db) - 1)) as [E|E].
    + rewrite (moveUpOption_unfold self o db db Hid
                 (renumberOptions_dense self db Hpk Hd)) in Hrun.
      rewrite E, Z.eqb_refl in Hrun. injection Hrun as _ <-. auto.
    + rewrite moveUpOption_dense_refused in Hrun by (auto; lia). discriminate.
  - pose proof (proj2 (proj2 (returns_member self o db)) _ _ Hrun) as Hid.
    pose proof (option_set_member self db o Hpk Ho Hid) as Hin.
    pose proof (dense_number_range self db o Hd Hin) as Hr.
    destruct (Z.eq_dec (number o) 0) as [E|E].
    + rewrite (moveDownOption_unfold self o db db Hid
                 (renumberOptions_dense self db Hpk Hd)) in Hrun.
      rewrite E in Hrun. simpl in Hrun. injection Hrun as _ <-. auto.
    + rewrite moveDownOption_dense_refused in Hrun by (auto; lia). discriminate.
Qed.

(** X12: from a vote whose options are numbered 0..count-1, every
    sequence of calls that complete without error, each made with an
    instance that is a row of the table at the time of the call, leaves
    the options of the vote numbered 0..count-1, pairwise distinct. *)
Lemma calls_keep_dense s cs s' :
  steps s cs s' -> pk_unique (snd s) -> dense (fst s) (snd s) ->
  pk_unique (snd s') /\ dense (fst s') (snd s').
Proof.
  induction 1 as [s | s c s1 cs s2 Hstep Hsteps IH]; intros Hpk Hd; auto.
  destruct (step_preserves s c s1 Hstep Hpk Hd) as (Hpk1 & Hd1 & _).
  apply IH; assumption.
Qed.

(** X13: after addOption or deleteOption has returned the vote is
    numbered 0..count-1 whatever its numbering was before. *)
Lemma add_delete_reach_dense self db :
  pk_unique db ->
  (forall db', addOption self db = (inr tt, db') -> dense self db') /\
  (forall o self' db', deleteOption self o db = (inr self', db') -> dense self db').
Proof.
  intros Hpk. split.
  - intros db' H. rewrite (addOption_returns_renumbered self db db' Hpk H).
    exact (added_dense self db Hpk).
  - intros o self' db' H.
    pose proof (proj1 (returns_member self o db) _ _ H) as Hid.
    destruct (deleteOption_outcome self o db Hpk Hid) as [R|R];
      cbv zeta in R; rewrite R in H; [|discriminate].
    injection H as _ <-.
    apply renumbered_is_dense. apply (deleted_pk_unique o db Hpk).
Qed.

(** * Further properties of the methods *)

(** ** A move whose neighbour is missing *)

Lemma filter_number_nil n l : ~ In n (map number l) -> filter_number n l = [].
Proof.
  intros H. unfold filter_number.
  induction l as [|x l IH]; simpl in *; auto.
  destruct (Z.eqb_spec (number x) n); [exfalso; auto | apply IH; tauto].
Qed.

Lemma renumbered_no_neighbour self db n :
  pk_unique db -> ~ 0 <= n < qs_count (option_set self db) ->
  filter_number n (option_set self (renumbered self db)) = [].
Proof.
  intros Hpk Hn. apply filter_number_nil. intros Hin.
  apply (proj2 (renumbered_is_dense self db Hpk)) in Hin.
  rewrite renumbered_count in Hin by assumption. contradiction.
Qed.

Lemma moveDownOption_body_unfold self option db R :
  In (opt_id option) (values_list_id (option_set self db)) ->
  renumberOptions self db = (inr tt, R) ->
  number option <> 0 ->
  filter_number (number option - 1) (option_set self R) = [] ->
  moveDownOption_body self option db = (inl IndexError, R).
Proof.
  intros Hin HR Hn Hf. unfold moveDownOption_body, bind, query.
  rewrite (proj2 (py_in_spec _ _) Hin). cbn [negb]. rewrite HR.
  destruct (Z.eqb_spec (number option) 0); [contradiction|].
  rewrite Hf. reflexivity.
Qed.

Lemma moveUpOption_body_unfold self option db R :
  In (opt_id option) (values_list_id (option_set self db)) ->
  renumberOptions self db = (inr tt, R) ->
  number option <> qs_count (option_set self R) - 1 ->
  filter_number (number option + 1) (option_set self R) = [] ->
  moveUpOption_body self option db = (inl IndexError, R).
Proof.
  intros Hin HR Hn Hf. unfold moveUpOption_body, bind, query.
  rewrite (proj2 (py_in_spec _ _) Hin). cbn [negb]. rewrite HR.
  destruct (Z.eqb_spec (number option) (qs_count (option_set self R) - 1));
    [contradiction|].
  rewrite Hf. reflexivity.
Qed.

(** X1: on a vote whose options carry pairwise distinct numbers, none
    negative, when the instance passed to a move carries a number whose
    neighbour cannot exist (for moveDownOption a number below 0 or above
    the count, for moveUpOption a number below -1 or at least the count),
    the move raises IndexError.  At the raise the body has already stored
    the renumbering; the transaction undoes it and the database is the one
    of before the call. *)
Theorem move_missing_neighbour (self : Vote) (option : Option) (db : DB) :
  pk_unique db -> distinct_nonneg self db ->
  In (opt_id option) (values_list_id (option_set self db)) ->
  (number option < 0 \/ qs_count (option_set self db) < number option ->
   moveDownOption_body self option db
   = (inl IndexError, snd (renumberOptions self db)) /\
   moveDownOption self option db = (inl IndexError, db)) /\
  (number option < -1 \/ qs_count (option_set self db) <= number option ->
   moveUpOption_body self option db
   = (inl IndexError, snd (renumberOptions self db)) /\
   moveUpOption self option db = (inl IndexError, db)).
Proof.
  intros Hpk Hnum Hin.
  pose proof (renumberOptions_run self db Hpk Hnum) as HR.
  rewrite HR. simpl snd.
  assert (0 <= qs_count (option_set self db)) as Hc
      by (unfold qs_count; lia).
  split; intros Hn.
  - assert (moveDownOption_body self option db
            = (inl IndexError, renumbered self db)) as Hb.
    { apply moveDownOption_body_unfold; auto; [lia|].
      apply renumbered_no_neighbour; auto; lia. }
    split; [exact Hb|].
    unfold moveDownOption, atomic. rewrite Hb. reflexivity.
  - assert (moveUpOption_body self option db
            = (inl IndexError, renumbered self db)) as Hb.
    { apply moveUpOption_body_unfold; auto.
      - rewrite renumbered_count by assumption. lia.
      - apply renumbered_no_neighbour; auto; lia. }
    split; [exact Hb|].
    unfold moveUpOption, atomic. rewrite Hb. reflexivity.
Qed.

(** Options numbered 0 and 5: moving the second one fails either way, and
    its number is 5 after the failed call as before. *)
Lemma move_missing_neighbour_witness :
  moveDownOption Sample.ballot (Sample.opt 11 1 5 "b" 0) Sample.db_gap2
  = (inl IndexError, Sample.db_gap2) /\
  moveUpOption Sample.ballot (Sample.opt 11 1 5 "b" 0) Sample.db_gap2
  = (inl IndexError, Sample.db_gap2).
Proof.
  assert (In (opt_id (Sample.opt 11 1 5 "b" 0))
             (values_list_id (option_set Sample.ballot Sample.db_gap2))) as Hin
      by (simpl; right; left; reflexivity).
  destruct (move_missing_neighbour Sample.ballot (Sample.opt 11 1 5 "b" 0)
              Sample.db_gap2 db_gap2_pk db_gap2_numbers Hin) as [Hd Hu].
  split.
  - apply Hd. simpl. right. unfold qs_count. simpl. lia.
  - apply Hu. simpl. right. unfold qs_count. simpl. lia.
Defined.

(** ** The fixed points of renumberOptions *)

(** X2: renumberOptions returns without error with the database it was
    given exactly when the options of the vote are already numbered
    0..count-1 without repetition. *)
Theorem renumberOptions_fixed_iff_dense (self : Vote) (db : DB) :
  pk_unique db ->
  (renumberOptions self db = (inr tt, db) <-> dense self db).
Proof.
  intros Hpk. split.
  - intros H. destruct (renumberOptions_outcome self db Hpk) as [E|E];
      rewrite E in H; [|discriminate].
    injection H as H. rewrite <- H.
    apply renumbered_is_dense; exact Hpk.
  - intros Hd. apply renumberOptions_dense; assumption.
Qed.

Lemma renumberOptions_fixed_iff_dense_witness :
  renumberOptions Sample.ballot Sample.db5 = (inr tt, Sample.db5) /\
  (renumberOptions Sample.ballot Sample.db_gap = (inr tt, Sample.db_gap) -> False).
Proof.
  split.
  - apply (proj2 (renumberOptions_fixed_iff_dense Sample.ballot Sample.db5 db5_pk)).
    exact db5_dense.
  - intros H.
    apply (proj1 (renumberOptions_fixed_iff_dense Sample.ballot Sample.db_gap db_gap_pk)) in H.
    destruct H as [_ H]. specialize (H 1). simpl in H.
    assert (0 <= 1 < qs_count (option_set Sample.ballot Sample.db_gap)) as H1
        by (unfold qs_count; simpl; lia).
    apply H in H1. simpl in H1. intuition discriminate.
Defined.

(** ** What a move can leave behind *)

(** The three outcomes of a move on an instance whose key is in the vote:
    the entry state (an error), the renumbered state (boundary), or the
    renumbered state with two saves on top. *)
Lemma move_outcome self option db :
  pk_unique db -> In (opt_id option) (values_list_id (option_set self db)) ->
  let out db' :=
    db' = db \/ db' = renumbered self db \/
    exists nb x y,
      In nb (option_set self (renumbered self db)) /\
      db' = two_saves (set_number option x) (set_number nb y) (renumbered self db) in
  out (snd (moveUpOption self option db)) /\
  out (snd (moveDownOption self option db)).
Proof.
  intros Hpk Hin out.
  destruct (renumberOptions_outcome self db Hpk) as [HR|HR].
  - split; unfold out.
    + rewrite (moveUpOption_unfold self option db _ Hin HR).
      destruct (number option =? _); [right; left; reflexivity|].
      destruct (filter_number _ _) as [|nb rest] eqn:Hf; [left; reflexivity|].
      destruct (collides _ _); [left; reflexivity|].
      destruct (collides _ _); [left; reflexivity|].
      right; right. exists nb, (number option + 1), (number option).
      split; [eapply filter_number_In; exact Hf | reflexivity].
    + rewrite (moveDownOption_unfold self option db _ Hin HR).
      destruct (number option =? _); [right; left; reflexivity|].
      destruct (filter_number _ _) as [|nb rest] eqn:Hf; [left; reflexivity|].
      destruct (collides _ _); [left; reflexivity|].
      destruct (collides _ _); [left; reflexivity|].
      right; right. exists nb, (number option - 1), (number option).
      split; [eapply filter_number_In; exact Hf | reflexivity].
  - destruct (move_renumber_raises self option db _ _ Hin HR) as [Hu Hd].
    rewrite Hu, Hd. split; left; reflexivity.
Qed.

(** ** Other votes *)

Lemma of_vote_other self other o :
  vote_id other <> vote_id self -> of_vote self o = true -> of_vote other o = false.
Proof.
  unfold of_vote. intros Hne H. apply Z.eqb_eq in H.
  apply Z.eqb_neq. congruence.
Qed.

(** A row whose key is among the keys of the vote's options is one of them. *)
Lemma row_of_self self db r :
  pk_unique db -> In r (options db) ->
  In (opt_id r) (values_list_id (option_set self db)) -> of_vote self r = true.
Proof.
  intros Hpk Hr Hid.
  pose proof (option_set_member self db r Hpk Hr Hid) as H.
  apply filter_In in H. tauto.
Qed.

Lemma renumbered_other self other db :
  pk_unique db -> vote_id other <> vote_id self ->
  option_set other (renumbered self db) = option_set other db.
Proof.
  intros Hpk Hne. rewrite renumbered_option_set by assumption.
  transitivity (map (fun r : Option => r) (option_set other db)); [|apply map_id].
  apply map_ext_in. intros r Hr. apply assign_notin.
  unfold renumber_entries, enumerate. rewrite enumerate_from_pk.
  intros Hin. apply in_map_iff in Hin. destruct Hin as (v & E & Hv).
  apply sorted_In in Hv.
  pose proof (option_set_In self db v Hv) as Hv'.
  pose proof (option_set_In other db r Hr) as Hr'.
  apply (pk_inj (options db)) in E; auto. subst v.
  apply filter_In in Hv, Hr.
  rewrite (of_vote_other self other r Hne) in Hr; [destruct Hr; discriminate | tauto].
Qed.

Lemma renumbered_ids self db :
  pk_unique db ->
  values_list_id (option_set self (renumbered self db))
  = values_list_id (option_set self db).
Proof.
  intros Hpk. unfold values_list_id.
  rewrite renumbered_option_set by assumption. rewrite map_map.
  apply map_ext. intros; apply assign_pk.
Qed.

Lemma upsert_option_other other o rows :
  of_vote other o = false ->
  (forall r, In r rows -> opt_id r = opt_id o -> of_vote other r = false) ->
  filter (of_vote other) (upsert_option o rows) = filter (of_vote other) rows.
Proof.
  intros Ho Hrows. unfold upsert_option. destruct (has_pk (opt_id o) rows).
  - unfold update_row. induction rows as [|x rows IH]; simpl; auto.
    destruct (same_pk o x) eqn:E; unfold same_pk in E.
    + apply Z.eqb_eq in E. rewrite Ho, (Hrows x (or_introl eq_refl) E).
      apply IH. intros r Hr; apply Hrows; right; assumption.
    + destruct (of_vote other x); [f_equal|];
        apply IH; intros r Hr; apply Hrows; right; assumption.
  - rewrite filter_app. simpl. rewrite Ho. apply app_nil_r.
Qed.

Lemma upsert_option_In o rows r :
  In r (upsert_option o rows) -> r = o \/ In r rows.
Proof.
  unfold upsert_option. destruct (has_pk (opt_id o) rows).
  - unfold update_row. intros H. apply in_map_iff in H.
    destruct H as (r0 & E & Hr0). destruct (same_pk o r0); subst; auto.
  - intros H. apply in_app_or in H. destruct H as [H|[H|[]]]; auto.
Qed.

Lemma two_saves_other self other o' b' db :
  pk_unique db -> vote_id other <> vote_id self ->
  of_vote self o' = true -> of_vote self b' = true ->
  In (opt_id o') (values_list_id (option_set self db)) ->
  In (opt_id b') (values_list_id (option_set self db)) ->
  option_set other (two_saves o' b' db) = option_set other db.
Proof.
  intros Hpk Hne Ho Hb Hio Hib. unfold option_set, two_saves; simpl.
  assert (forall k r, In k (values_list_id (option_set self db)) ->
                      In r (options db) -> opt_id r = k ->
                      of_vote other r = false) as Hrow.
  { intros k r Hk Hr E. apply (of_vote_other self); auto.
    apply (row_of_self self db r Hpk Hr). rewrite E. exact Hk. }
  rewrite upsert_option_other.
  - apply upsert_option_other.
    + apply (of_vote_other self); assumption.
    + intros r Hr E. apply (Hrow (opt_id b') r); assumption.
  - apply (of_vote_other self); assumption.
  - intros r Hr E. apply upsert_option_In in Hr. destruct Hr as [->|Hr].
    + apply (of_vote_other self); assumption.
    + apply (Hrow (opt_id o') r); assumption.
Qed.

Lemma deleted_other self other option db :
  pk_unique db -> vote_id other <> vote_id self ->
  In (opt_id option) (values_list_id (option_set self db)) ->
  filter (of_vote other) (delete_row option (options db)) = option_set other db.
Proof.
  intros Hpk Hne Hin. unfold delete_row. rewrite filter_swap.
  apply (delete_row_notin option (filter (of_vote other) (options db))).
  intros H. apply in_map_iff in H. destruct H as (r & E & Hr).
  apply filter_In in Hr. destruct Hr as [Hr Hv].
  rewrite (of_vote_other self other r Hne) in Hv; [discriminate|].
  apply (row_of_self self db r Hpk Hr). rewrite E. exact Hin.
Qed.

Lemma option_set_app_other other vs rows o :
  of_vote other o = false ->
  option_set other (mkDB vs (rows ++ [o])) = option_set other (mkDB vs rows).
Proof.
  intros H. unfold option_set; simpl. rewrite filter_app; simpl. rewrite H.
  apply app_nil_r.
Qed.

(** X3: a call on one vote leaves the options of every other vote as they
    are, rows and storage order: renumberOptions, addOption and
    deleteOption with any instance, and the two moves with an instance
    whose [vote] attribute is the vote called, whether the call returns or
    raises. *)
Theorem other_votes_untouched (self other : Vote) (option : Option) (db : DB) :
  pk_unique db -> vote_id other <> vote_id self ->
  option_set other (snd (renumberOptions self db)) = option_set other db /\
  option_set other (snd (addOption self db)) = option_set other db /\
  option_set other (snd (deleteOption self option db)) = option_set other db /\
  (vote option = vote_id self ->
   option_set other (snd (moveUpOption self option db)) = option_set other db /\
   option_set other (snd (moveDownOption self option db)) = option_set other db).
Proof.
  intros Hpk Hne.
  split.
  { destruct (renumberOptions_outcome self db Hpk) as [E|E]; rewrite E; simpl snd;
      [apply renumbered_other; assumption | reflexivity]. }
  split.
  { destruct (addOption_outcome self db Hpk) as [E|E]; rewrite E; simpl snd;
      [|reflexivity].
    rewrite <- (renumbered_other self other db Hpk Hne).
    apply (option_set_app_other other (votes db) (options (renumbered self db))).
    apply (of_vote_other self); auto.
    unfold of_vote, added, new_Option; simpl. apply Z.eqb_refl. }
  destruct (py_in (opt_id option) (values_list_id (option_set self db))) eqn:Hin.
  - apply py_in_spec in Hin. split.
    { destruct (deleteOption_outcome self option db Hpk Hin) as [R|R];
        cbv zeta in R; rewrite R; simpl snd; [|reflexivity].
      rewrite (renumbered_other self other);
        [|apply (deleted_pk_unique option db Hpk) | assumption].
      apply (deleted_other self); assumption. }
    intros Hv.
    assert (forall db',
               db' = db \/ db' = renumbered self db \/
               (exists nb x y,
                   In nb (option_set self (renumbered self db)) /\
                   db' = two_saves (set_number option x) (set_number nb y)
                                   (renumbered self db)) ->
               option_set other db' = option_set other db) as Hout.
    { intros db' [->|[->|(nb & x & y & Hnb & ->)]]; auto using renumbered_other.
      rewrite <- (renumbered_other self other db Hpk Hne).
      apply (two_saves_other self); auto using renumbered_pk_unique.
      - unfold of_vote; simpl. rewrite Hv. apply Z.eqb_refl.
      - apply filter_In in Hnb. destruct Hnb as [_ Hnb]. exact Hnb.
      - rewrite renumbered_ids by assumption. exact Hin.
      - apply (in_map opt_id) in Hnb. exact Hnb. }
    destruct (move_outcome self option db Hpk Hin) as [Hu Hd].
    split; apply Hout; assumption.
  - destruct (not_member_raises self option db Hin) as ((_ & D) & (_ & U) & (_ & W)).
    rewrite D, U, W. simpl. auto.
Qed.

Lemma other_votes_untouched_witness :
  option_set Sample.other
    (snd (deleteOption Sample.ballot (Sample.opt 11 1 1 "b" 0) Sample.db3))
  = option_set Sample.other Sample.db3 /\
  option_set Sample.other
    (snd (moveUpOption Sample.ballot (Sample.opt 11 1 1 "b" 0) Sample.db3))
  = option_set Sample.other Sample.db3.
Proof.
  assert (vote_id Sample.other <> vote_id Sample.ballot) as Hne
      by (simpl; discriminate).
  destruct (other_votes_untouched Sample.ballot Sample.other
              (Sample.opt 11 1 1 "b" 0) Sample.db3 db3_pk Hne)
    as (_ & _ & Hdel & Hmove).
  split; [exact Hdel|]. apply Hmove. reflexivity.
Defined.

(** ** Moves write numbers only *)

Lemma erase_set_number o n : erase_number (set_number o n) = erase_number o.
Proof. reflexivity. Qed.

Lemma renumbered_erase self db :
  pk_unique db ->
  map erase_number (options (renumbered self db)) = map erase_number (options db).
Proof.
  intros Hpk. simpl. rewrite map_map. apply map_ext_in. intros r Hr.
  fold (renumber_entries self db).
  rewrite (assign_row _ (options db) r Hpk (renumber_entries_In self db) Hr).
  apply erase_set_number.
Qed.

Lemma upsert_option_erase o rows :
  has_pk (opt_id o) rows = true ->
  (forall r, In r rows -> opt_id r = opt_id o -> erase_number r = erase_number o) ->
  map erase_number (upsert_option o rows) = map erase_number rows.
Proof.
  intros Hk Hrows. unfold upsert_option. rewrite Hk.
  unfold update_row. rewrite map_map. apply map_ext_in. intros r Hr.
  destruct (same_pk o r) eqn:E; auto.
  unfold same_pk in E. apply Z.eqb_eq in E. symmetry. apply Hrows; assumption.
Qed.

(** In the renumbered table the row under the key of a stored instance is
    that instance, its number apart. *)
Lemma renumbered_row_erase self db o r :
  pk_unique db -> In o (options db) ->
  In r (options (renumbered self db)) -> opt_id r = opt_id o ->
  erase_number r = erase_number o.
Proof.
  intros Hpk Ho Hr E. simpl in Hr. apply in_map_iff in Hr.
  destruct Hr as (r0 & <- & Hr0). fold (renumber_entries self db) in *.
  rewrite assign_pk in E. apply (pk_inj (options db)) in E; auto. subst r0.
  rewrite (assign_row _ (options db) o Hpk (renumber_entries_In self db) Ho).
  apply erase_set_number.
Qed.

Lemma two_saves_erase self db o nb x y :
  pk_unique db -> In o (options db) ->
  In nb (options (renumbered self db)) ->
  map erase_number
      (options (two_saves (set_number o x) (set_number nb y) (renumbered self db)))
  = map erase_number (options db).
Proof.
  intros Hpk Ho Hnb.
  pose proof (renumbered_pk_unique self db Hpk) as HpkR.
  rewrite <- (renumbered_erase self db Hpk).
  unfold two_saves. cbn [options].
  assert (has_pk (opt_id nb) (options (renumbered self db)) = true) as Hk1
      by (apply has_pk_true, in_map; exact Hnb).
  assert (map opt_id (upsert_option (set_number nb y) (options (renumbered self db)))
          = map opt_id (options (renumbered self db))) as Hids.
  { unfold upsert_option. simpl opt_id. rewrite Hk1. apply update_row_ids. }
  rewrite upsert_option_erase.
  - apply upsert_option_erase; [exact Hk1|].
    intros r Hr E. simpl in E.
    apply (pk_inj (options (renumbered self db))) in E; auto. subst r.
    reflexivity.
  - apply has_pk_true. rewrite Hids, renumbered_pk. simpl.
    apply in_map; exact Ho.
  - intros r Hr E. simpl in E. rewrite erase_set_number.
    apply upsert_option_In in Hr. destruct Hr as [->|Hr].
    + rewrite erase_set_number.
      apply (renumbered_row_erase self db o nb); auto.
    + apply (renumbered_row_erase self db o r); auto.
Qed.

(** X4: whatever the numbering of the vote, a move made with an instance
    that is a stored row of the vote, whether it returns or raises, leaves
    the votes table unwritten and the options table with the same rows in
    the same storage order, each with all its attributes but possibly its
    number: no row is added or removed and no name, description, link or
    count is changed. *)
Theorem move_writes_numbers_only (self : Vote) (option : Option) (db : DB) :
  pk_unique db -> In option (option_set self db) ->
  (votes (snd (moveUpOption self option db)) = votes db /\
   map erase_number (options (snd (moveUpOption self option db)))
   = map erase_number (options db)) /\
  (votes (snd (moveDownOption self option db)) = votes db /\
   map erase_number (options (snd (moveDownOption self option db)))
   = map erase_number (options db)).
Proof.
  intros Hpk Hin.
  pose proof (option_set_ids self db option Hin) as Hid.
  pose proof (option_set_In self db option Hin) as Hrow.
  assert (forall db',
             db' = db \/ db' = renumbered self db \/
             (exists nb x y,
                 In nb (option_set self (renumbered self db)) /\
                 db' = two_saves (set_number option x) (set_number nb y)
                                 (renumbered self db)) ->
             votes db' = votes db /\
             map erase_number (options db') = map erase_number (options db))
    as Hout.
  { intros db' [->|[->|(nb & x & y & Hnb & ->)]].
    - split; reflexivity.
    - split; [reflexivity | apply renumbered_erase; exact Hpk].
    - split; [reflexivity|].
      apply two_saves_erase; auto.
      apply (option_set_In self _ nb Hnb). }
  destruct (move_outcome self option db Hpk Hid) as [Hu Hd].
  split; apply Hout; assumption.
Qed.

(** On the vote numbered 0, 3, 4, where moveDownOption goes wrong about
    the numbers, names and counts are as before. *)
Lemma move_writes_numbers_only_witness :
  map erase_number
      (options (snd (moveDownOption Sample.ballot (Sample.opt 11 1 3 "b" 0)
                                    Sample.db_gap)))
  = map erase_number (options Sample.db_gap).
Proof.
  assert (In (Sample.opt 11 1 3 "b" 0) (option_set Sample.ballot Sample.db_gap))
    as Hin by (simpl; right; left; reflexivity).
  exact (proj2 (proj2 (move_writes_numbers_only Sample.ballot
                         (Sample.opt 11 1 3 "b" 0) Sample.db_gap db_gap_pk Hin))).
Defined.

(** ** The instance a move returns *)

Lemma upsert_option_find o rows :
  find (fun r => opt_id r =? opt_id o) (upsert_option o rows) = Some o.
Proof.
  unfold upsert_option. destruct (has_pk (opt_id o) rows) eqn:E.
  - unfold has_pk in E. unfold update_row.
    induction rows as [|x rows IH]; simpl in *; [discriminate|].
    destruct (same_pk o x) eqn:S; unfold same_pk in S; simpl.
    + rewrite Z.eqb_refl. reflexivity.
    + rewrite S in E |- *. apply IH. exact E.
  - unfold has_pk in E.
    induction rows as [|x rows IH]; simpl in *.
    + rewrite Z.eqb_refl. reflexivity.
    + apply orb_false_iff in E. destruct E as [E1 E2].
      rewrite E1. apply IH. exact E2.
Qed.

(** X5: when a move returns an instance other than the one it was given
    (it went past the boundary test and saved), the row stored under the
    option's key is exactly the returned instance: every attribute of the
    instance passed in, with the number moved by one.  This holds for any
    numbering and for an instance that is out of date. *)
Theorem move_returns_stored_row (self : Vote) (option o' : Option) (db db' : DB) :
  pk_unique db ->
  (moveUpOption self option db = (inr o', db') -> o' <> option ->
   o' = set_number option (number option + 1) /\
   lookup_option (opt_id option) db' = Some o') /\
  (moveDownOption self option db = (inr o', db') -> o' <> option ->
   o' = set_number option (number option - 1) /\
   lookup_option (opt_id option) db' = Some o').
Proof.
  intros Hpk. split; intros Hrun Hne.
  - pose proof (proj1 (proj2 (returns_member self option db)) _ _ Hrun) as Hid.
    destruct (renumberOptions_outcome self db Hpk) as [HR|HR].
    + rewrite (moveUpOption_unfold self option db _ Hid HR) in Hrun.
      destruct (number option =? _); [injection Hrun as <- _; contradiction|].
      destruct (filter_number _ _) as [|nb rest]; [discriminate|].
      destruct (collides _ _); [discriminate|].
      destruct (collides _ _); [discriminate|].
      injection Hrun as <- <-. split; [reflexivity|].
      unfold lookup_option, two_saves. cbn [options].
      apply (upsert_option_find (set_number option (number option + 1))).
    + rewrite (proj1 (move_renumber_raises self option db _ _ Hid HR)) in Hrun.
      discriminate.
  - pose proof (proj2 (proj2 (returns_member self option db)) _ _ Hrun) as Hid.
    destruct (renumberOptions_outcome self db Hpk) as [HR|HR].
    + rewrite (moveDownOption_unfold self option db _ Hid HR) in Hrun.
      destruct (number option =? _); [injection Hrun as <- _; contradiction|].
      destruct (filter_number _ _) as [|nb rest]; [discriminate|].
      destruct (collides _ _); [discriminate|].
      destruct (collides _ _); [discriminate|].
      injection Hrun as <- <-. split; [reflexivity|].
      unfold lookup_option, two_saves. cbn [options].
      apply (upsert_option_find (set_number option (number option - 1))).
    + rewrite (proj2 (move_renumber_raises self option db _ _ Hid HR)) in Hrun.
      discriminate.
Qed.

(** Options numbered 0, 3, 4 and an instance of the option at 3 loaded
    before its name was changed to "b": the move returns and stores the
    old name again. *)
Lemma move_returns_stored_row_witness :
  lookup_option 11
    (snd (moveDownOption Sample.ballot (Sample.opt 11 1 3 "old" 0) Sample.db_gap))
  = Some (Sample.opt 11 1 2 "old" 0).
Proof.
  assert (Sample.opt 11 1 2 "old" 0 <> Sample.opt 11 1 3 "old" 0) as Hne
      by discriminate.
  exact (proj2 (proj2 (move_returns_stored_row Sample.ballot
                         (Sample.opt 11 1 3 "old" 0) (Sample.opt 11 1 2 "old" 0)
                         Sample.db_gap
                         (snd (moveDownOption Sample.ballot
                                              (Sample.opt 11 1 3 "old" 0)
                                              Sample.db_gap))
                         db_gap_pk)
                      eq_refl Hne)).
Defined.

(** ** deleteOption closes the gap *)









(** ** Relative order across deleteOption *)



(** ** Calls that undo each other *)




(** ** Building a vote by repeated addOption *)

Lemma add_many_run self n : forall db m,
  pk_unique db ->
  map number (option_set self db) = range_from 0 m ->
  exists db' news,
    add_many n self db = (inr tt, db') /\
    pk_unique db' /\
    option_set self db' = option_set self db ++ news /\
    map (fun o => (number o, name o)) news
    = map (fun j => (j, default_name j)) (range_from (Z.of_nat m) n).
Proof.
  induction n as [|n IH]; intros db m Hpk Hnum.
  - exists db, []. simpl. rewrite app_nil_r. auto.
  - assert (List.length (option_set self db) = m) as Hlen.
    { rewrite <- (length_map number), Hnum. apply range_from_length. }
    assert (dense self db) as Hd.
    { apply perm_range_dense. unfold numbers. rewrite Hnum, Hlen.
      apply Permutation_refl. }
    pose proof (addOption_run self db Hpk (dense_distinct_nonneg _ _ Hd)) as Hrun.
    rewrite (renumbered_dense self db Hpk Hd) in Hrun.
    set (db1 := mkDB (votes db) (options db ++ [added self db])) in *.
    assert (pk_unique db1) as Hpk1.
    { pose proof (added_pk_unique self db Hpk) as H.
      rewrite (renumbered_dense self db Hpk Hd) in H. exact H. }
    assert (option_set self db1 = option_set self db ++ [added self db]) as Hset.
    { unfold db1. destruct db as [vs rows]. cbn [votes options].
      apply option_set_app.
      unfold of_vote, added, new_Option; simpl. apply Z.eqb_refl. }
    assert (number (added self db) = Z.of_nat m) as Hnew
        by (unfold added, new_Option, qs_count; simpl; rewrite Hlen; reflexivity).
    assert (map number (option_set self db1) = range_from 0 (S m)) as Hnum1.
    { rewrite Hset, map_app, Hnum, range_from_snoc. cbn [map].
      rewrite Hnew, Z.add_0_l. reflexivity. }
    destruct (IH db1 (S m) Hpk1 Hnum1) as (db' & news & Hmany & Hpk' & Hset' & Hnews).
    exists db', (added self db :: news).
    split.
    { simpl. unfold bind. rewrite Hrun. exact Hmany. }
    split; [exact Hpk'|].
    split.
    { rewrite Hset', Hset, <- app_assoc. reflexivity. }
    simpl. rewrite Hnews. f_equal.
    + unfold default_name. rewrite <- Hnew. reflexivity.
    + do 2 f_equal. lia.
Qed.

(** X11: on a vote without options, n calls of addOption in a row all
    return and leave, in storage order, n options numbered 0, 1, ..., n-1
    with the names "Option #1", "Option #2", ..., "Option #n"; the vote is
    numbered 0..count-1. *)
Theorem add_many_from_empty (self : Vote) (n : nat) (db : DB) :
  pk_unique db -> option_set self db = [] ->
  exists db',
    add_many n self db = (inr tt, db') /\
    map (fun o => (number o, name o)) (option_set self db')
    = map (fun j => (j, default_name j)) (range_from 0 n) /\
    dense self db'.
Proof.
  intros Hpk Hempty.
  destruct (add_many_run self n db O Hpk) as (db' & news & Hrun & _ & Hset & Hnews).
  { rewrite Hempty. reflexivity. }
  rewrite Hempty in Hset. simpl in Hset, Hnews.
  exists db'. split; [exact Hrun|].
  rewrite Hset. split; [exact Hnews|].
  apply perm_range_dense. unfold numbers. rewrite Hset.
  assert (map number news = range_from 0 n) as Hnum.
  { transitivity (map fst (map (fun o => (number o, name o)) news)).
    - rewrite map_map. reflexivity.
    - rewrite Hnews, map_map. simpl. apply map_id. }
  rewrite Hnum, <- (length_map number), Hnum, range_from_length.
  apply Permutation_refl.
Qed.

Lemma add_many_from_empty_witness :
  exists db',
    add_many 3 Sample.other (mkDB [Sample.other] []) = (inr tt, db') /\
    map (fun o => (number o, name o)) (option_set Sample.other db')
    = [(0, "Option #1"); (1, "Option #2"); (2, "Option #3")].
Proof.
  assert (pk_unique (mkDB [Sample.other] [])) as Hpk by constructor.
  destruct (add_many_from_empty Sample.other 3 (mkDB [Sample.other] []) Hpk eq_refl)
    as (db' & Hrun & Hnames & _).
  exists db'. split; [exact Hrun | exact Hnames].
Defined.

(** ** Sequences of calls, on samples *)

Lemma calls_keep_dense_witness :
  exists s',
    steps (Sample.ballot, Sample.db3)
          [AddOption; DeleteOption (Sample.opt 11 1 1 "b" 0);
           MoveDownOption (Sample.opt 10 1 0 "a" 4)] s' /\
    pk_unique (snd s') /\ dense (fst s') (snd s').
Proof.
  set (db1 := snd (addOption Sample.ballot Sample.db3)).
  set (v2 := clamp_votes Sample.ballot 3).
  set (db2 := snd (deleteOption Sample.ballot (Sample.opt 11 1 1 "b" 0) db1)).
  set (db3' := snd (moveDownOption v2 (Sample.opt 10 1 0 "a" 4) db2)).
  assert (steps (Sample.ballot, Sample.db3)
                [AddOption; DeleteOption (Sample.opt 11 1 1 "b" 0);
                 MoveDownOption (Sample.opt 10 1 0 "a" 4)]
                (v2, db3')) as Hsteps.
  { apply (steps_cons _ _ (Sample.ballot, db1)).
    - apply step_add. reflexivity.
    - apply (steps_cons _ _ (v2, db2)).
      + apply step_delete.
        * simpl. right. left. reflexivity.
        * reflexivity.
      + apply (steps_cons _ _ (v2, db3')); [|apply steps_nil].
        apply (step_down _ _ (Sample.opt 10 1 0 "a" 4)).
        * simpl. left. reflexivity.
        * reflexivity. }
  exists (v2, db3'). split; [exact Hsteps|].
  exact (calls_keep_dense _ _ _ Hsteps db3_pk db3_dense).
Defined.

Lemma add_delete_reach_dense_witness :
  dense Sample.ballot (snd (addOption Sample.ballot Sample.db_tampered)) /\
  dense Sample.ballot
        (snd (deleteOption Sample.ballot (Sample.opt 11 1 3 "b" 0) Sample.db_gap)).
Proof.
  split.
  - apply (proj1 (add_delete_reach_dense Sample.ballot Sample.db_tampered
                    db_tampered_pk)).
    reflexivity.
  - apply (proj2 (add_delete_reach_dense Sample.ballot Sample.db_gap db_gap_pk)
                 (Sample.opt 11 1 3 "b" 0) (clamp_votes Sample.ballot 2)).
    reflexivity.
Defined.

(** ** Display strings *)

Lemma str_inj a b : str a = str b -> a = b.
Proof.
  unfold str. intros H. apply DecimalZ.to_int_inj.
  assert (forall z, NilZero.int_of_string (NilZero.string_of_int (Z.to_int z))
                    = Some (Z.to_int z)) as Hisi.
  { intros z. apply NilZero.isi; destruct z; simpl; try discriminate;
      intros E; injection E; apply DecimalPos.Unsigned.to_uint_nonnil. }
  pose proof (Hisi a) as Ha. rewrite H, Hisi in Ha. congruence.
Qed.

Lemma uint_no_bracket d :
  has_char "]"%char (NilEmpty.string_of_uint d) = false.
Proof. induction d; simpl; auto. Qed.

Lemma str_no_bracket n : has_char "]"%char (str n) = false.
Proof.
  unfold str. destruct (Z.to_int n) as [d|d]; simpl;
    destruct d; simpl; auto using uint_no_bracket.
Qed.

Lemma append_bracket_inj s1 : forall s2 r1 r2,
  has_char "]"%char s1 = false -> has_char "]"%char s2 = false ->
  String.append s1 (String "]"%char r1) = String.append s2 (String "]"%char r2) ->
  s1 = s2 /\ r1 = r2.
Proof.
  induction s1 as [|a s1 IH]; intros [|c s2] r1 r2 H1 H2 E; simpl in *.
  - injection E as ->. auto.
  - injection E as <- _. discriminate.
  - injection E as -> _. discriminate.
  - injection E as -> E.
    destruct (Ascii.eqb c "]"%char); [discriminate|].
    destruct (IH s2 r1 r2 H1 H2 E) as [-> ->]. auto.
Qed.

(** X14: the display string of an option, "[number] name", determines the
    number and the name: two options with the same string have the same
    number and the same name. *)
Theorem Option_str_inj (o1 o2 : Option) :
  Option_str o1 = Option_str o2 -> number o1 = number o2 /\ name o1 = name o2.
Proof.
  unfold Option_str. simpl. intros E. injection E as E.
  apply append_bracket_inj in E; auto using str_no_bracket.
  destruct E as [En Em]. split; [apply str_inj; exact En|].
  injection Em as Em. exact Em.
Qed.

Lemma Option_str_inj_witness :
  number (Sample.opt 10 1 3 "a" 4) = number (Sample.opt 25 2 3 "a" 0) /\
  name (Sample.opt 10 1 3 "a" 4) = name (Sample.opt 25 2 3 "a" 0).
Proof.
  apply (Option_str_inj (Sample.opt 10 1 3 "a" 4) (Sample.opt 25 2 3 "a" 0)).
  reflexivity.
Defined.

(** X15: the display string of a vote, "[machine_name] name", determines
    both parts when the machine names hold no closing bracket, as slugs do
    not; without that it does not: the machine name "a] b" with the name
    "c" and the machine name "a" with the name "b] c" are displayed
    alike. *)
Theorem Vote_str_inj (v1 v2 : Vote) :
  (has_char "]"%char (machine_name v1) = false ->
   has_char "]"%char (machine_name v2) = false ->
   Vote_str v1 = Vote_str v2 ->
   machine_name v1 = machine_name v2 /\ vote_name v1 = vote_name v2) /\
  Vote_str (mkVote 1 1 "c" "a] b" None Sample.st blank 1 0 0)
  = Vote_str (mkVote 2 1 "b] c" "a" None Sample.st blank 1 0 0).
Proof.
  split; [|reflexivity].
  unfold Vote_str. simpl. intros H1 H2 E. injection E as E.
  apply append_bracket_inj in E; auto.
  destruct E as [En Em]. split; [exact En|].
  injection Em as Em. exact Em.
Qed.

Lemma Vote_str_inj_witness :
  machine_name Sample.ballot = machine_name Sample.ballot /\
  vote_name Sample.ballot
  = vote_name (mkVote 7 3 "Board" "board" None Sample.st blank 2 0 1).
Proof.
  apply (proj1 (Vote_str_inj Sample.ballot
                  (mkVote 7 3 "Board" "board" None Sample.st blank 2 0 1)));
    reflexivity.
Defined.

(** ** The permission check *)

Lemma cons_eq_inv {A} (a b : A) l l' : a :: l = b :: l' -> a = b /\ l = l'.
Proof. intros H. injection H. auto. Qed.

Lemma find_erase k (rows : list Option) : forall rows' t o,
  map erase_number rows' = map erase_number rows ++ t ->
  find (fun r => opt_id r =? k) rows = Some o ->
  exists o', find (fun r => opt_id r =? k) rows' = Some o' /\
             erase_number o' = erase_number o.
Proof.
  induction rows as [|x rows IH]; intros rows' t o E H; simpl in *; [discriminate|].
  destruct rows' as [|x' rows']; simpl in E; [discriminate|].
  apply cons_eq_inv in E. destruct E as [Ex E].
  assert (opt_id x' = opt_id x) as Hk
      by (change (opt_id (erase_number x') = opt_id (erase_number x)); congruence).
  simpl. rewrite Hk. destruct (opt_id x =? k).
  - injection H as <-. exists x'. auto.
  - apply (IH rows' t o E H).
Qed.

Lemma canEdit_frame {User : Type} (isAdminFor : User -> Z -> bool) user db db' t o :
  votes db' = votes db ->
  map erase_number (options db') = map erase_number (options db) ++ t ->
  pk_unique db -> In o (options db) ->
  exists o', lookup_option (opt_id o) db' = Some o' /\
             Option_canEdit isAdminFor o' user db'
             = Option_canEdit isAdminFor o user db.
Proof.
  intros Hv He Hpk Ho.
  destruct (find_erase (opt_id o) (options db) (options db') t o He
              (find_pk (options db) o Hpk Ho)) as (o' & Hf & E).
  exists o'. split; [exact Hf|].
  assert (vote o' = vote o) as Hvote
      by (change (vote (erase_number o') = vote (erase_number o)); congruence).
  unfold Option_canEdit, lookup_vote. rewrite Hvote, Hv. reflexivity.
Qed.

(** X16: Option.canEdit answers for an option of a stored vote what
    Vote.canEdit answers for that vote, and the calls that reorder or add
    options do not change the answer: after renumberOptions, addOption, or
    a move made with a stored row of the vote, whether it returned or
    raised, every option stored before is stored under its key with the
    same answer, for every user. *)
Theorem canEdit_unchanged {User : Type} (isAdminFor : User -> Z -> bool)
        (user : User) (self : Vote) (option : Option) (db : DB) :
  pk_unique db -> In option (option_set self db) ->
  (lookup_vote (vote_id self) db = Some self ->
   Option_canEdit isAdminFor option user db
   = Some (Vote_canEdit isAdminFor self user)) /\
  forall db',
    db' = snd (renumberOptions self db) \/ db' = snd (addOption self db) \/
    db' = snd (moveUpOption self option db) \/
    db' = snd (moveDownOption self option db) ->
    forall o, In o (options db) ->
      exists o', lookup_option (opt_id o) db' = Some o' /\
                 Option_canEdit isAdminFor o' user db'
                 = Option_canEdit isAdminFor o user db.
Proof.
  intros Hpk Hin. split.
  - intros Hl. unfold Option_canEdit. apply filter_In in Hin.
    destruct Hin as [_ Hv]. unfold of_vote in Hv. apply Z.eqb_eq in Hv.
    rewrite Hv, Hl. reflexivity.
  - assert (forall db',
               db' = db \/ db' = renumbered self db \/
               (exists nb x y,
                   In nb (option_set self (renumbered self db)) /\
                   db' = two_saves (set_number option x) (set_number nb y)
                                   (renumbered self db)) ->
               votes db' = votes db /\
               map erase_number (options db') = map erase_number (options db) ++ [])
      as Hout.
    { rewrite app_nil_r.
      intros db' [->|[->|(nb & x & y & Hnb & ->)]].
      - split; reflexivity.
      - split; [reflexivity | apply renumbered_erase; exact Hpk].
      - split; [reflexivity|].
        apply two_saves_erase;
          [exact Hpk | apply (option_set_In self db option Hin)
           | apply (option_set_In self _ nb Hnb)]. }
    destruct (move_outcome self option db Hpk (option_set_ids self db option Hin))
      as [Hu Hd].
    intros db' Hdb' o Ho.
    destruct Hdb' as [ -> | [ -> | [ -> | -> ] ] ].
    + assert (snd (renumberOptions self db) = renumbered self db \/
              snd (renumberOptions self db) = db) as HR
          by (destruct (renumberOptions_outcome self db Hpk) as [H|H];
              rewrite H; auto).
      destruct (Hout (snd (renumberOptions self db))) as [Hv He];
        [destruct HR as [HR|HR]; rewrite HR; auto|].
      apply (canEdit_frame isAdminFor user db _ [] o Hv He Hpk Ho).
    + destruct (addOption_outcome self db Hpk) as [H|H]; rewrite H; simpl snd;
        [|destruct (Hout db) as [Hv He]; [auto|];
          apply (canEdit_frame isAdminFor user db _ [] o Hv He Hpk Ho)].
      apply (canEdit_frame isAdminFor user db _ [erase_number (added self db)] o);
        auto.
      change (map erase_number (options (renumbered self db) ++ [added self db])
              = map erase_number (options db) ++ [erase_number (added self db)]).
      rewrite map_app, renumbered_erase by assumption. reflexivity.
    + destruct (Hout _ Hu) as [Hv He].
      apply (canEdit_frame isAdminFor user db _ [] o Hv He Hpk Ho).
    + destruct (Hout _ Hd) as [Hv He].
      apply (canEdit_frame isAdminFor user db _ [] o Hv He Hpk Ho).
Qed.

(** A user who administers system 1 only: the answer for an option of the
    sample vote is yes, before and after a move. *)
Lemma canEdit_unchanged_witness :
  Option_canEdit (fun (u : Z) (sys : Z) => sys =? u) (Sample.opt 12 1 2 "c" 7) 1
                 Sample.db5
  = Some (Vote_canEdit (fun (u : Z) (sys : Z) => sys =? u) Sample.ballot 1) /\
  exists o',
    lookup_option 10
      (snd (moveUpOption Sample.ballot (Sample.opt 12 1 2 "c" 7) Sample.db5))
    = Some o' /\
    Option_canEdit (fun (u : Z) (sys : Z) => sys =? u) o' 1
      (snd (moveUpOption Sample.ballot (Sample.opt 12 1 2 "c" 7) Sample.db5))
    = Option_canEdit (fun (u : Z) (sys : Z) => sys =? u)
                     (Sample.opt 10 1 3 "a" 4) 1 Sample.db5.
Proof.
  assert (In (Sample.opt 12 1 2 "c" 7) (option_set Sample.ballot Sample.db5)) as Hin
      by (simpl; right; right; left; reflexivity).
  destruct (canEdit_unchanged (fun (u : Z) (sys : Z) => sys =? u) 1 Sample.ballot
              (Sample.opt 12 1 2 "c" 7) Sample.db5 db5_pk Hin) as [Hvote Hsame].
  split.
  - apply Hvote. reflexivity.
  - apply (Hsame _ (or_intror (or_intror (or_introl eq_refl)))
                 (Sample.opt 10 1 3 "a" 4)).
    simpl. left. reflexivity.
Defined.

